(** * Connector reconciliation engine of kas-fleet-manager

    A shallow embedding of the connector manager worker
    (package [workers]: [Reconcile], [ReconcileConnectorCatalogEntry],
    [GetShardMetadataRevision], the five per-row reconcilers,
    [doReconcile] and [InDBTransaction]) together with the properties
    the specification states about it.

    Conventions of the embedding.
    - Go [int64] values are [Z]; the engine only compares and copies
      versions, the one conversion ([int64] of a [float64]) is written
      out in [int64_of_float64].
    - A Go [(value, error)] result is a sum, a lone [error] result an
      [option]; [None] is Go's [nil].
    - The collaborators the engine is given (services, database) are a
      record of state-passing functions over an arbitrary store type.
    - Every call the engine makes on a collaborator is appended to a
      journal, so that "no write was issued" and "called in this order"
      are properties of the final state.
    - A Go run-time panic is an outcome of its own ([Panicked]); deferred
      functions run on it.
    - [glog] output and the row counter that only feeds it are left out. *)

From Stdlib Require Import ZArith Bool SpecFloat.
From stdpp Require Import base option list strings gmap.

Open Scope string_scope.
Open Scope Z_scope.

(** ** Go values held in a [map[string]interface{}] *)

(* Nested in [list]: no induction scheme is generated or needed. *)
Local Unset Elimination Schemes.

Inductive GoValue : Type :=
| VNil
| VBool (b : bool)
| VInt (n : Z)
| VFloat64 (f : spec_float)
| VString (s : string)
| VSlice (l : list GoValue)
| VMap (m : list (string * GoValue)).

(** [reflect.Kind] of the dynamic types above. *)
Inductive Kind : Type := KBool | KInt | KFloat64 | KString | KSlice | KMap.

Definition Kind_String (k : Kind) : string :=
  match k with
  | KBool => "bool" | KInt => "int" | KFloat64 => "float64"
  | KString => "string" | KSlice => "slice" | KMap => "map"
  end.

(** Result of a Go call that may panic. *)
Inductive Outcome (A : Type) : Type :=
| Returned (a : A)
| Panicked (msg : string).
Arguments Returned {A} a.
Arguments Panicked {A} msg.

(** [reflect.TypeOf(v).Kind()]: [reflect.TypeOf(nil)] is the nil [Type],
    and calling [Kind] on it is a nil dereference. *)
Definition reflect_TypeOf_Kind (v : GoValue) : Outcome Kind :=
  match v with
  | VNil => Panicked "invalid memory address or nil pointer dereference"
  | VBool _ => Returned KBool
  | VInt _ => Returned KInt
  | VFloat64 _ => Returned KFloat64
  | VString _ => Returned KString
  | VSlice _ => Returned KSlice
  | VMap _ => Returned KMap
  end.

(** ** Go errors *)

Inductive ErrorCode : Type :=
| ErrorNotFound
| ErrorGeneral
| ErrorCodeOther (n : Z).

(** [error] values: a [ServiceError], an error made by [errors.Errorf],
    one wrapped by [errors.Wrapf], or any other error a collaborator
    returns.  Formatting arguments are kept next to the format string. *)
Inductive GoError : Type :=
| OfServiceError (e : ServiceError)
| Errorf (format : string) (args : list FmtArg)
| Wrapf (cause : GoError) (format : string) (args : list FmtArg)
| ExternalError (text : string)
with ServiceError : Type :=
| MkServiceError (Code : ErrorCode) (Reason : string) (ReasonArgs : list FmtArg)
with FmtArg : Type :=
| ArgString (s : string)
| ArgInt (z : Z)
| ArgError (e : GoError).

Local Set Elimination Schemes.

Definition Code (e : ServiceError) : ErrorCode :=
  match e with MkServiceError c _ _ => c end.

(** [serviceError.GeneralError(reason, values...)] *)
Definition GeneralError (reason : string) (values : list FmtArg) : ServiceError :=
  MkServiceError ErrorGeneral reason values.

(** The method [Is404] of [ServiceError]. *)
Definition Is404 (e : ServiceError) : bool :=
  match Code e with ErrorNotFound => true | _ => false end.

(** A [ServiceError] pointer returned where the caller expects an [error]. *)
Definition asError (e : option ServiceError) : option GoError :=
  OfServiceError <$> e.

(** ** [int64] of a [float64] *)

Definition int64_min : Z := - 2 ^ 63.
Definition int64_max : Z := 2 ^ 63 - 1.

(** The integer part of a finite float, the fraction discarded. *)
Definition float64_trunc (f : spec_float) : option Z :=
  match f with
  | S754_zero _ => Some 0
  | S754_finite s m e =>
      let a := if 0 <=? e then Z.pos m * 2 ^ e else Z.pos m / 2 ^ (- e) in
      Some (if s then - a else a)
  | S754_infinity _ | S754_nan => None
  end.

(** Go's conversion [int64(f)]: truncation toward zero; where the result
    does not fit, the value amd64 produces (the integer indefinite). *)
Definition int64_of_float64 (f : spec_float) : Z :=
  match float64_trunc f with
  | Some z => if (int64_min <=? z) && (z <=? int64_max) then z else int64_min
  | None => int64_min
  end.

(** A float that denotes an integer. *)
Definition float64_is_integral (f : spec_float) : bool :=
  match f with
  | S754_zero _ => true
  | S754_finite _ m e => if 0 <=? e then true else Z.pos m mod 2 ^ (- e) =? 0
  | S754_infinity _ | S754_nan => false
  end.

(** ** Catalog revision *)

(** [GetShardMetadataRevision] *)
Definition GetShardMetadataRevision (connectorShardMetadata : gmap string GoValue)
  : Outcome (Z * option GoError) :=
  match connectorShardMetadata !! "connector_revision" with
  | Some revision =>
      match revision with
      | VFloat64 floatRevision => Returned (int64_of_float64 floatRevision, None)
      | _ =>
          match reflect_TypeOf_Kind revision with
          | Returned k =>
              Returned (0, Some (Errorf "connector_revision in shard metadata was not an int but a %v"
                                        [ArgString (Kind_String k)]))
          | Panicked msg => Panicked msg
          end
      end
  | None => Returned (0, Some (Errorf "connector_revision not found in shard metadata" []))
  end.

(** The condition of the specification, in its words: the value under
    [connector_revision] is numerically integral. *)
Definition numericallyIntegral (v : GoValue) : bool :=
  match v with
  | VInt _ => true
  | VFloat64 f => float64_is_integral f
  | _ => false
  end.

(** What the specification says fails: the key is missing, or its value
    is not numerically integral. *)
Definition specRevisionFails (m : gmap string GoValue) : bool :=
  match m !! "connector_revision" with
  | None => true
  | Some v => negb (numericallyIntegral v)
  end.

(** Whether a call returned with a non-nil error. *)
Definition returnsError {A} (r : Outcome (A * option GoError)) : bool :=
  match r with
  | Returned (_, Some _) => true
  | _ => false
  end.

(** 1.5 as a binary64 value: 3 * 2^-1. *)
Definition float_1_5 : spec_float := S754_finite false 3 (-1).
Definition float_3 : spec_float := S754_finite false 3 0.

(** ** Data model (package [dbapi]) *)

Inductive ConnectorDesiredState : Type :=
| ConnectorReady
| ConnectorUnassigned
| ConnectorDeleted.

Inductive ConnectorStatusPhase : Type :=
| ConnectorStatusPhaseAssigning
| ConnectorStatusPhaseAssigned
| ConnectorStatusPhaseDeleting
| ConnectorStatusPhaseDeleted.

#[global] Instance ConnectorDesiredState_eq_dec : EqDecision ConnectorDesiredState.
Proof. solve_decision. Defined.

#[global] Instance ConnectorStatusPhase_eq_dec : EqDecision ConnectorStatusPhase.
Proof. solve_decision. Defined.

Record ConnectorStatus : Type := {
  Status_ID : string;
  Status_NamespaceID : option string;
  Status_Phase : ConnectorStatusPhase
}.

Record Connector : Type := {
  Connector_ID : string;
  Connector_Owner : string;
  Connector_OrganisationId : string;
  Connector_NamespaceId : option string;
  Connector_ConnectorTypeId : string;
  Connector_Channel : string;
  Connector_DesiredState : ConnectorDesiredState;
  Connector_Version : Z;
  Connector_Status : ConnectorStatus
}.

Record ConnectorNamespace : Type := {
  Namespace_ID : string;
  Namespace_ClusterId : string
}.

Record ConnectorDeployment : Type := {
  Deployment_ID : string;
  Deployment_ConnectorID : string;
  Deployment_ClusterID : string;
  Deployment_NamespaceID : string;
  Deployment_ConnectorVersion : Z;
  Deployment_ConnectorShardMetadataID : Z
}.

Record ConnectorShardMetadata : Type := {
  ShardMetadata_ID : Z;
  ShardMetadata_ConnectorTypeId : string;
  ShardMetadata_Channel : string;
  ShardMetadata_Revision : Z;
  ShardMetadata_ShardMetadata : string
}.

(** [config.ConnectorChannelConfig] *)
Record ConnectorChannelConfig : Type := {
  ChannelConfig_ShardMetadata : gmap string GoValue
}.

(** [connector.Status.Phase = p] *)
Definition setStatusPhase (p : ConnectorStatusPhase) (st : ConnectorStatus) : ConnectorStatus :=
  {| Status_ID := Status_ID st;
     Status_NamespaceID := Status_NamespaceID st;
     Status_Phase := p |}.

(** [connector.Status.NamespaceID = n] *)
Definition setStatusNamespaceID (n : option string) (st : ConnectorStatus) : ConnectorStatus :=
  {| Status_ID := Status_ID st;
     Status_NamespaceID := n;
     Status_Phase := Status_Phase st |}.

(** [deployment.ConnectorVersion = v] *)
Definition setConnectorVersion (v : Z) (d : ConnectorDeployment) : ConnectorDeployment :=
  {| Deployment_ID := Deployment_ID d;
     Deployment_ConnectorID := Deployment_ConnectorID d;
     Deployment_ClusterID := Deployment_ClusterID d;
     Deployment_NamespaceID := Deployment_NamespaceID d;
     Deployment_ConnectorVersion := v;
     Deployment_ConnectorShardMetadataID := Deployment_ConnectorShardMetadataID d |}.

(** ** The four row predicates [Reconcile] hands to [ForEach] *)

Inductive Query : Type :=
(** desired_state = ? AND phase = ? AND connectors.namespace_id IS NOT NULL *)
| QDesiredPhaseNamespaced (d : ConnectorDesiredState) (p : ConnectorStatusPhase)
(** desired_state = ? AND phase = ? *)
| QDesiredPhase (d : ConnectorDesiredState) (p : ConnectorStatusPhase)
(** desired_state = ? AND phase IN ? *)
| QDesiredPhaseIn (d : ConnectorDesiredState) (ps : list ConnectorStatusPhase)
(** version > ? AND phase NOT IN ? *)
| QVersionPhaseNotIn (v : Z) (ps : list ConnectorStatusPhase).

Definition matches (q : Query) (c : Connector) : bool :=
  let phase := Status_Phase (Connector_Status c) in
  match q with
  | QDesiredPhaseNamespaced d p =>
      bool_decide (Connector_DesiredState c = d) && bool_decide (phase = p)
      && (match Connector_NamespaceId c with Some _ => true | None => false end)
  | QDesiredPhase d p =>
      bool_decide (Connector_DesiredState c = d) && bool_decide (phase = p)
  | QDesiredPhaseIn d ps =>
      bool_decide (Connector_DesiredState c = d) && bool_decide (phase ∈ ps)
  | QVersionPhaseNotIn v ps =>
      (v <? Connector_Version c) && negb (bool_decide (phase ∈ ps))
  end.

(** ** Collaborators *)

(** The handle [db.NewContext] returns. *)
Inductive Context : Type := MkContext (id : Z).

(** The calls the engine issues, in the order it issues them. *)
Inductive Event : Type :=
| CallDeleteUnusedAndNotInCatalog
| CallForEachConnectorCatalogEntry
| CallPutConnectorShardMetadata (m : ConnectorShardMetadata)
| CallCleanupDeployments
| CallNewContext
| CallForEach (q : Query)
| CallBegin
| CallMarkForRollback (err : option GoError)
| CallResolve
| CallCommit
| CallRollback
| CallAddPostCommitAction
| CallFindAvailableNamespace (owner organisation : string) (namespaceId : option string)
| CallGetLatestConnectorShardMetadata (connectorTypeId channel : string)
| CallSaveStatus (st : ConnectorStatus)
| CallSaveDeployment (d : ConnectorDeployment)
| CallGetDeploymentByConnectorId (id : string)
| CallDelete (id : string)
| CallUpdateNamespaceId (id : string) (namespaceId : option string)
| CallNewID.

(** The services and the database the manager is constructed with, over
    a store of type [S].  Each operation takes the store and returns its
    result with the store it leaves. *)
Record Collaborators (S : Type) : Type := {
  (* services.ConnectorTypesService *)
  DeleteUnusedAndNotInCatalog : S -> option ServiceError * S;
  catalogEntries : list (string * string * ConnectorChannelConfig);
  PutConnectorShardMetadata : ConnectorShardMetadata -> S -> option ServiceError * S;
  GetLatestConnectorShardMetadata :
    string -> string -> S -> (ServiceError + ConnectorShardMetadata) * S;
  (* services.ConnectorClusterService *)
  CleanupDeployments : S -> option ServiceError * S;
  FindAvailableNamespace :
    string -> string -> option string -> S -> (ServiceError + option ConnectorNamespace) * S;
  SaveDeployment : ConnectorDeployment -> S -> option ServiceError * S;
  GetDeploymentByConnectorId : string -> S -> (ServiceError + ConnectorDeployment) * S;
  (* services.ConnectorsService *)
  connectorTable : S -> list Connector;
  scanErrors : Query -> S -> list GoError;
  SaveStatus : ConnectorStatus -> S -> option ServiceError * S;
  Delete : string -> S -> option ServiceError * S;
  (* db.ConnectionFactory *)
  NewContext : S -> (GoError + Context) * S;
  UpdateNamespaceId : string -> option string -> S -> option GoError * S;
  beginTx : S -> option GoError * S;
  commitTx : S -> option GoError * S;
  rollbackTx : S -> option GoError * S;
  (* api.NewID and json.Marshal *)
  NewID : S -> string * S;
  json_Marshal : gmap string GoValue -> GoError + string
}.

Arguments DeleteUnusedAndNotInCatalog {S}.
Arguments catalogEntries {S}.
Arguments PutConnectorShardMetadata {S}.
Arguments GetLatestConnectorShardMetadata {S}.
Arguments CleanupDeployments {S}.
Arguments FindAvailableNamespace {S}.
Arguments SaveDeployment {S}.
Arguments GetDeploymentByConnectorId {S}.
Arguments connectorTable {S}.
Arguments scanErrors {S}.
Arguments SaveStatus {S}.
Arguments Delete {S}.
Arguments NewContext {S}.
Arguments UpdateNamespaceId {S}.
Arguments beginTx {S}.
Arguments commitTx {S}.
Arguments rollbackTx {S}.
Arguments NewID {S}.
Arguments json_Marshal {S}.

(** ** State of the engine *)

(** The mutable fields of [ConnectorManager]. *)
Record ConnectorManager : Type := {
  lastVersion : Z;
  startupReconcileDone : bool;
  ctx : option Context
}.

(** The transaction bound to the manager's context: the rollback mark
    and the queued post-commit actions (closures over the manager). *)
Record Tx : Type := {
  markedForRollback : bool;
  postCommitActions : list (ConnectorManager -> ConnectorManager)
}.

Record World (S : Type) : Type := {
  store : S;
  manager : ConnectorManager;
  tx : option Tx;
  journal : list Event
}.

Arguments store {S}.
Arguments manager {S}.
Arguments tx {S}.
Arguments journal {S}.

Definition setLastVersion (v : Z) (k : ConnectorManager) : ConnectorManager :=
  {| lastVersion := v; startupReconcileDone := startupReconcileDone k; ctx := ctx k |}.

Definition setStartupReconcileDone (b : bool) (k : ConnectorManager) : ConnectorManager :=
  {| lastVersion := lastVersion k; startupReconcileDone := b; ctx := ctx k |}.

Definition setCtx (c : option Context) (k : ConnectorManager) : ConnectorManager :=
  {| lastVersion := lastVersion k; startupReconcileDone := startupReconcileDone k; ctx := c |}.

Definition withStore {S} (s : S) (w : World S) : World S :=
  {| store := s; manager := manager w; tx := tx w; journal := journal w |}.

Definition withManager {S} (k : ConnectorManager) (w : World S) : World S :=
  {| store := store w; manager := k; tx := tx w; journal := journal w |}.

Definition withTx {S} (t : option Tx) (w : World S) : World S :=
  {| store := store w; manager := manager w; tx := t; journal := journal w |}.

Definition record {S} (ev : Event) (w : World S) : World S :=
  {| store := store w; manager := manager w; tx := tx w; journal := journal w ++ [ev] |}.

(** ** Computations of the engine *)

Definition M (S A : Type) : Type := World S -> Outcome A * World S.

Definition ret {S A} (a : A) : M S A := fun w => (Returned a, w).

Definition bind {S A B} (m : M S A) (f : A -> M S B) : M S B :=
  fun w =>
    match m w with
    | (Returned a, w') => f a w'
    | (Panicked msg, w') => (Panicked msg, w')
    end.

Notation "'let!' x ':=' m 'in' f" := (bind m (fun x => f))
  (at level 10, x pattern, m at level 100, f at level 200).

(** A call on a collaborator: journal it, run it on the store. *)
Definition call {S A} (ev : Event) (op : S -> A * S) : M S A :=
  fun w =>
    let '(a, s) := op (store w) in
    (Returned a, withStore s (record ev w)).

(** A pure Go call that may panic. *)
Definition lift {S A} (o : Outcome A) : M S A := fun w => (o, w).

Definition getManager {S} : M S ConnectorManager := fun w => (Returned (manager w), w).

Definition modifyManager {S} (f : ConnectorManager -> ConnectorManager) : M S unit :=
  fun w => (Returned tt, withManager (f (manager w)) w).

(** A function with a named result [r] and one deferred closure that
    may assign [r].  The closure runs when the body returns, with the
    returned value in [r], and also when the body panics, with [r] still
    at its zero value; the panic then goes on. *)
Definition deferring {S A} (zero : A) (body : M S A) (deferred : A -> M S A) : M S A :=
  fun w =>
    match body w with
    | (Returned r, w') => deferred r w'
    | (Panicked msg, w') =>
        match deferred zero w' with
        | (Returned _, w'') => (Panicked msg, w'')
        | (Panicked msg', w'') => (Panicked msg', w'')
        end
    end.

Section Engine.

Context {S : Type} (sv : Collaborators S).

(** ** Package [db]: the transaction bound to a context *)

(** Modelled from the spec: the function [Begin] of package [db], which
    is not part of the sources at hand.  It begins a transaction bound
    to the context; a fresh transaction has no rollback mark and no
    queued action. *)
Definition db_Begin : M S (option GoError) :=
  let! err := call CallBegin (beginTx sv) in
  match err with
  | Some e => ret (Some e)
  | None =>
      fun w => (Returned None,
                withTx (Some {| markedForRollback := false; postCommitActions := [] |}) w)
  end.

(** Modelled from the spec: [MarkForRollback] of package [db].  The mark
    is sticky; the error is only the stated cause. *)
Definition db_MarkForRollback (err : option GoError) : M S unit :=
  fun w =>
    let w' := record (CallMarkForRollback err) w in
    match tx w' with
    | Some t =>
        (Returned tt,
         withTx (Some {| markedForRollback := true;
                         postCommitActions := postCommitActions t |}) w')
    | None => (Returned tt, w')
    end.

(** Modelled from the spec: [AddPostCommitAction] of package [db].  It
    queues the action behind those already registered, and fails when
    the context carries no transaction. *)
Definition db_AddPostCommitAction (f : ConnectorManager -> ConnectorManager)
  : M S (option GoError) :=
  fun w =>
    let w' := record CallAddPostCommitAction w in
    match tx w' with
    | Some t =>
        (Returned None,
         withTx (Some {| markedForRollback := markedForRollback t;
                         postCommitActions := postCommitActions t ++ [f] |}) w')
    | None =>
        (Returned (Some (ExternalError "could not retrieve transaction from context")), w')
    end.

(** Running the queued actions in registration order. *)
Definition runPostCommitActions (fs : list (ConnectorManager -> ConnectorManager))
  (k : ConnectorManager) : ConnectorManager :=
  foldl (fun k f => f k) k fs.

(** Modelled from the spec: [Resolve] of package [db].  A marked
    transaction is rolled back and its actions are dropped; an unmarked
    one is committed and, when the commit succeeds, its actions run once,
    in registration order.  The transaction is gone afterwards. *)
Definition db_Resolve : M S (option GoError) :=
  fun w =>
    let w0 := record CallResolve w in
    match tx w0 with
    | None =>
        (Returned (Some (ExternalError "could not retrieve transaction from context")), w0)
    | Some t =>
        if markedForRollback t then
          (let! err := call CallRollback (rollbackTx sv) in ret err) (withTx None w0)
        else
          (let! err := call CallCommit (commitTx sv) in
           match err with
           | Some e => ret (Some e)
           | None =>
               let! _ := modifyManager (runPostCommitActions (postCommitActions t)) in
               ret None
           end) (withTx None w0)
    end.

(** ** [InDBTransaction] *)

(** What [InDBTransaction] returns for an inner error: a [ServiceError]
    as it is, any other error as a general error. *)
Definition preserved (err : GoError) : ServiceError :=
  match err with
  | OfServiceError e => e
  | _ => GeneralError "%v" [ArgError err]
  end.

(** [InDBTransaction(ctx, f)].  The transaction lives in the context,
    here in the world, so [ctx] is not an argument.  [rerr], the named
    result, is still nil when [MarkForRollback] receives it. *)
Definition InDBTransaction (f : M S (option GoError)) : M S (option ServiceError) :=
  let! err := db_Begin in
  match err with
  | Some e => ret (Some (GeneralError "failed to create tx: %v" [ArgError e]))
  | None =>
      deferring None
        (let! err := f in
         match err with
         | Some e =>
             let rerr : option ServiceError := None in
             let! _ := db_MarkForRollback (asError rerr) in
             ret (Some (preserved e))
         | None => ret None
         end)
        (fun rerr =>
           let! err := db_Resolve in
           match err with
           | Some e => ret (Some (GeneralError "failed to resolve tx: %v" [ArgError e]))
           | None => ret rerr
           end)
  end.

(** ** Catalog reconciliation *)

(** [ReconcileConnectorCatalogEntry] *)
Definition ReconcileConnectorCatalogEntry (id channel : string)
  (connectorChannelConfig : ConnectorChannelConfig) : M S (option ServiceError) :=
  let! r := lift (GetShardMetadataRevision (ChannelConfig_ShardMetadata connectorChannelConfig)) in
  let '(revision, err) := r in
  match err with
  | Some e =>
      ret (Some (GeneralError
        "failed to convert connector type %s, channel %s. Error in loaded connector type shard metadata %+v: %v"
        [ArgString id; ArgString channel; ArgError e]))
  | None =>
      match json_Marshal sv (ChannelConfig_ShardMetadata connectorChannelConfig) with
      | inl e =>
          ret (Some (GeneralError "failed to convert connector type %s, channel %s: %v"
                       [ArgString id; ArgString channel; ArgError e]))
      | inr bytes =>
          let connectorShardMetadata :=
            {| ShardMetadata_ID := 0;
               ShardMetadata_ConnectorTypeId := id;
               ShardMetadata_Channel := channel;
               ShardMetadata_Revision := revision;
               ShardMetadata_ShardMetadata := bytes |} in
          let! serr := call (CallPutConnectorShardMetadata connectorShardMetadata)
                            (PutConnectorShardMetadata sv connectorShardMetadata) in
          match serr with
          | Some e => ret (Some e)
          | None => ret None
          end
      end
  end.

(** Modelled from the spec: [ForEachConnectorCatalogEntry] of the
    connector types service, which is not part of the sources at hand.
    It hands each configured (type, channel, config) entry to [f] and
    stops at the first error. *)
Fixpoint forEachEntry (f : string -> string -> ConnectorChannelConfig -> M S (option ServiceError))
  (entries : list (string * string * ConnectorChannelConfig)) : M S (option ServiceError) :=
  match entries with
  | [] => ret None
  | (id, channel, config) :: rest =>
      let! err := f id channel config in
      match err with
      | Some e => ret (Some e)
      | None => forEachEntry f rest
      end
  end.

Definition ForEachConnectorCatalogEntry
  (f : string -> string -> ConnectorChannelConfig -> M S (option ServiceError))
  : M S (option ServiceError) :=
  fun w => forEachEntry f (catalogEntries sv) (record CallForEachConnectorCatalogEntry w).

(** ** Row scan *)

(** Modelled from the spec: [ForEach] of the connectors service, which
    is not part of the sources at hand.  It invokes [f] on each row that
    matches the predicate, in the store's iteration order; an error of a
    row does not end the scan and is not part of the result; the result
    is the service-level errors of the scan. *)
Fixpoint forEachRow (f : Connector -> M S (option ServiceError)) (rows : list Connector)
  : M S unit :=
  match rows with
  | [] => ret tt
  | connector :: rest =>
      let! _ := f connector in
      forEachRow f rest
  end.

Definition selectedRows (q : Query) (s : S) : list Connector :=
  List.filter (matches q) (connectorTable sv s).

Definition ForEach (f : Connector -> M S (option ServiceError)) (q : Query)
  : M S (list GoError) :=
  fun w =>
    let rows := selectedRows q (store w) in
    let errs := scanErrors sv q (store w) in
    (let! _ := forEachRow f rows in ret errs) (record (CallForEach q) w).

(** ** The per-row reconcilers

    [ForEach] scans each row into a struct of its own; what a reconciler
    writes to that struct and does not save is not seen again, so the
    reconcilers take the row and return their error. *)

(** [reconcileAssigning] *)
Definition reconcileAssigning (connector : Connector) : M S (option GoError) :=
  let! found := call (CallFindAvailableNamespace (Connector_Owner connector)
                        (Connector_OrganisationId connector) (Connector_NamespaceId connector))
                     (FindAvailableNamespace sv (Connector_Owner connector)
                        (Connector_OrganisationId connector) (Connector_NamespaceId connector)) in
  match found with
  | inl err =>
      ret (Some (Wrapf (OfServiceError err) "failed to find namespace for connector request %s"
                   [ArgString (Connector_ID connector)]))
  | inr None => ret None
  | inr (Some namespace) =>
      let! latest := call (CallGetLatestConnectorShardMetadata
                             (Connector_ConnectorTypeId connector) (Connector_Channel connector))
                          (GetLatestConnectorShardMetadata sv
                             (Connector_ConnectorTypeId connector) (Connector_Channel connector)) in
      match latest with
      | inl err =>
          ret (Some (Wrapf (OfServiceError err)
                       "failed to get latest channel version for connector request %s"
                       [ArgString (Connector_ID connector)]))
      | inr shardMetadata =>
          let status :=
            {| Status_ID := Connector_ID connector;
               Status_NamespaceID := Some (Namespace_ID namespace);
               Status_Phase := ConnectorStatusPhaseAssigned |} in
          let! err := call (CallSaveStatus status) (SaveStatus sv status) in
          match err with
          | Some err =>
              ret (Some (Wrapf (OfServiceError err)
                           "failed to update connector status %s with namespace details"
                           [ArgString (Status_ID status)]))
          | None =>
              let! newID := call CallNewID (NewID sv) in
              let deployment :=
                {| Deployment_ID := newID;
                   Deployment_ConnectorID := Connector_ID connector;
                   Deployment_ClusterID := Namespace_ClusterId namespace;
                   Deployment_NamespaceID := Namespace_ID namespace;
                   Deployment_ConnectorVersion := Connector_Version connector;
                   Deployment_ConnectorShardMetadataID := ShardMetadata_ID shardMetadata |} in
              let! err := call (CallSaveDeployment deployment) (SaveDeployment sv deployment) in
              match err with
              | Some err =>
                  ret (Some (Wrapf (OfServiceError err)
                               "failed to create connector deployment for connector %s"
                               [ArgString (Connector_ID connector)]))
              | None => ret None
              end
          end
      end
  end.

(** [reconcileUnassigned] *)
Definition reconcileUnassigned (connector : Connector) : M S (option GoError) :=
  let status :=
    setStatusNamespaceID None
      (setStatusPhase ConnectorStatusPhaseAssigning (Connector_Status connector)) in
  let! err := call (CallUpdateNamespaceId (Connector_ID connector) None)
                   (UpdateNamespaceId sv (Connector_ID connector) None) in
  match err with
  | Some err =>
      ret (Some (Wrapf err "failed to update namespace_id for connector %s"
                   [ArgString (Connector_ID connector)]))
  | None =>
      let! err := call (CallSaveStatus status) (SaveStatus sv status) in
      match err with
      | Some err =>
          ret (Some (Wrapf (OfServiceError err)
                       "failed to update phase to assigning for connector %s"
                       [ArgString (Connector_ID connector)]))
      | None => ret None
      end
  end.

(** [reconcileDeleting] *)
Definition reconcileDeleting (connector : Connector) : M S (option GoError) :=
  let! found := call (CallGetDeploymentByConnectorId (Connector_ID connector))
                     (GetDeploymentByConnectorId sv (Connector_ID connector)) in
  match found with
  | inl err =>
      if Is404 err then
        let! uerr := call (CallUpdateNamespaceId (Connector_ID connector) None)
                          (UpdateNamespaceId sv (Connector_ID connector) None) in
        match uerr with
        | Some uerr =>
            ret (Some (Wrapf uerr "failed to update namespace_id for connector %s"
                         [ArgString (Connector_ID connector)]))
        | None =>
            let status := setStatusPhase ConnectorStatusPhaseDeleted (Connector_Status connector) in
            let! err := call (CallSaveStatus status) (SaveStatus sv status) in
            match err with
            | Some err => ret (Some (OfServiceError err))
            | None => ret None
            end
        end
      else ret (Some (OfServiceError err))
  | inr _ => ret None
  end.

(** [reconcileDeleted] *)
Definition reconcileDeleted (connector : Connector) : M S (option GoError) :=
  let! err := call (CallDelete (Connector_ID connector)) (Delete sv (Connector_ID connector)) in
  match err with
  | Some err => ret (Some (OfServiceError err))
  | None => ret None
  end.

(** [reconcileConnectorUpdate].  The closure handed to
    [AddPostCommitAction] reads [connector.Version] when it runs; nothing
    writes that field in between, so it is the version read here. *)
Definition reconcileConnectorUpdate (connector : Connector) : M S (option GoError) :=
  let! found := call (CallGetDeploymentByConnectorId (Connector_ID connector))
                     (GetDeploymentByConnectorId sv (Connector_ID connector)) in
  let! err :=
    match found with
    | inl serr => ret (Some (OfServiceError serr))
    | inr deployment =>
        if bool_decide (Deployment_ConnectorVersion deployment <> Connector_Version connector)
        then
          let deployment := setConnectorVersion (Connector_Version connector) deployment in
          let! serr := call (CallSaveDeployment deployment) (SaveDeployment sv deployment) in
          match serr with
          | Some serr =>
              ret (Some (Wrapf (OfServiceError serr)
                           "failed to update connector version in deployment for connector %s"
                           [ArgString (Connector_ID connector)]))
          | None => ret None
          end
        else ret None
    end in
  let! cerr := db_AddPostCommitAction (setLastVersion (Connector_Version connector)) in
  match cerr with
  | Some cerr =>
      match err with
      | None => ret (Some cerr)
      | Some err =>
          ret (Some (Errorf "Multiple errors in reconciling connector %s: %s; %s"
                       [ArgString (Connector_ID connector); ArgError err; ArgError cerr]))
      end
  | None => ret err
  end.

(** ** [doReconcile] and [Reconcile] *)

(** [doReconcile(&errs, reconcilePhase, reconcileFunc, query, args...)]:
    the error bag goes in and comes out. *)
Definition doReconcile (errs : list GoError) (reconcilePhase : string)
  (reconcileFunc : Connector -> M S (option GoError)) (q : Query) : M S (list GoError) :=
  let! serviceErrs :=
    ForEach (fun connector =>
               InDBTransaction
                 (let! err := reconcileFunc connector in
                  match err with
                  | Some err => ret (Some err)
                  | None => ret None
                  end)) q in
  match serviceErrs with
  | [] => ret errs
  | _ :: _ => ret (errs ++ serviceErrs)%list
  end.

Definition assigningQuery : Query :=
  QDesiredPhaseNamespaced ConnectorReady ConnectorStatusPhaseAssigning.
Definition unassignedQuery : Query :=
  QDesiredPhase ConnectorUnassigned ConnectorStatusPhaseDeleted.
Definition deletingQuery : Query :=
  QDesiredPhase ConnectorDeleted ConnectorStatusPhaseDeleting.
Definition deletedQuery : Query :=
  QDesiredPhaseIn ConnectorDeleted [ConnectorStatusPhaseAssigning; ConnectorStatusPhaseDeleted].
Definition updatedQuery (lastVersion : Z) : Query :=
  QVersionPhaseNotIn lastVersion
    [ConnectorStatusPhaseAssigning; ConnectorStatusPhaseDeleting; ConnectorStatusPhaseDeleted].

(** The five [doReconcile] calls that end [Reconcile]. *)
Definition reconcilePhases (errs : list GoError) : M S (list GoError) :=
  let! errs := doReconcile errs "assigning" reconcileAssigning assigningQuery in
  let! errs := doReconcile errs "unassigned" reconcileUnassigned unassignedQuery in
  let! errs := doReconcile errs "deleting" reconcileDeleting deletingQuery in
  let! errs := doReconcile errs "deleted" reconcileDeleted deletedQuery in
  let! k := getManager in
  let! errs := doReconcile errs "updated" reconcileConnectorUpdate (updatedQuery (lastVersion k)) in
  ret errs.

(** [Reconcile] *)
Definition Reconcile : M S (list GoError) :=
  let errs : list GoError := [] in
  let! k := getManager in
  let! startup :=
    if negb (startupReconcileDone k) then
      let! err := call CallDeleteUnusedAndNotInCatalog (DeleteUnusedAndNotInCatalog sv) in
      match err with
      | Some err => ret (Some [OfServiceError err])
      | None =>
          let! err := ForEachConnectorCatalogEntry ReconcileConnectorCatalogEntry in
          match err with
          | Some err => ret (Some [OfServiceError err])
          | None =>
              let! err := call CallCleanupDeployments (CleanupDeployments sv) in
              match err with
              | Some err => ret (Some [OfServiceError err])
              | None =>
                  let! _ := modifyManager (setStartupReconcileDone true) in
                  ret None
              end
          end
      end
    else ret None in
  match startup with
  | Some result => ret result
  | None =>
      let! k := getManager in
      let! context :=
        match ctx k with
        | None =>
            let! made := call CallNewContext (NewContext sv) in
            match made with
            | inl err => ret (Some [err])
            | inr c =>
                let! _ := modifyManager (setCtx (Some c)) in
                ret None
            end
        | Some _ => ret None
        end in
      match context with
      | Some result => ret result
      | None => reconcilePhases errs
      end
  end.

End Engine.

(** ** An in-memory store

    A small implementation of the collaborators, used to run the engine
    on concrete inputs.  Failures are injected by name; a transaction
    keeps a snapshot of the tables and a rollback restores it. *)

Inductive Fault : Type :=
| FailDeleteUnused
| FailCleanupDeployments
| FailNewContext
| FailBegin
| FailCommit
| FailUpdateNamespaceId
| FailSaveStatus
| FailScan.

#[global] Instance Fault_eq_dec : EqDecision Fault.
Proof. solve_decision. Defined.

Record MemStore : Type := {
  mem_connectors : list Connector;
  mem_deployments : list ConnectorDeployment;
  mem_namespaces : list ConnectorNamespace;
  mem_shardMetadata : list ConnectorShardMetadata;
  mem_snapshot : option (list Connector * list ConnectorDeployment);
  mem_freshIDs : list string;
  mem_faults : list Fault
}.

Definition memTables (cs : list Connector) (ds : list ConnectorDeployment)
  (snap : option (list Connector * list ConnectorDeployment)) (s : MemStore) : MemStore :=
  {| mem_connectors := cs;
     mem_deployments := ds;
     mem_namespaces := mem_namespaces s;
     mem_shardMetadata := mem_shardMetadata s;
     mem_snapshot := snap;
     mem_freshIDs := mem_freshIDs s;
     mem_faults := mem_faults s |}.

Definition memFails (f : Fault) (s : MemStore) : bool := bool_decide (f ∈ mem_faults s).

Definition memFault (f : Fault) (text : string) (s : MemStore) : option ServiceError * MemStore :=
  if memFails f s then (Some (GeneralError text []), s) else (None, s).

Definition memNotFound (text : string) : ServiceError := MkServiceError ErrorNotFound text [].

Definition memPutShardMetadata (m : ConnectorShardMetadata) (s : MemStore)
  : option ServiceError * MemStore :=
  (None,
   {| mem_connectors := mem_connectors s;
      mem_deployments := mem_deployments s;
      mem_namespaces := mem_namespaces s;
      mem_shardMetadata :=
        m :: List.filter (fun x => negb (String.eqb (ShardMetadata_ConnectorTypeId x)
                                                     (ShardMetadata_ConnectorTypeId m)
                                          && String.eqb (ShardMetadata_Channel x)
                                                        (ShardMetadata_Channel m)))
                         (mem_shardMetadata s);
      mem_snapshot := mem_snapshot s;
      mem_freshIDs := mem_freshIDs s;
      mem_faults := mem_faults s |}).

Definition memGetLatestShardMetadata (typeId channel : string) (s : MemStore)
  : (ServiceError + ConnectorShardMetadata) * MemStore :=
  match List.find (fun x => String.eqb (ShardMetadata_ConnectorTypeId x) typeId
                            && String.eqb (ShardMetadata_Channel x) channel)
                  (mem_shardMetadata s) with
  | Some m => (inr m, s)
  | None => (inl (memNotFound "connector type shard metadata not found"), s)
  end.

Definition memFindAvailableNamespace (owner organisation : string) (namespaceId : option string)
  (s : MemStore) : (ServiceError + option ConnectorNamespace) * MemStore :=
  match namespaceId with
  | Some id => (inr (List.find (fun n => String.eqb (Namespace_ID n) id) (mem_namespaces s)), s)
  | None => (inr (head (mem_namespaces s)), s)
  end.

Definition memSaveDeployment (d : ConnectorDeployment) (s : MemStore)
  : option ServiceError * MemStore :=
  (None,
   memTables (mem_connectors s)
     (d :: List.filter (fun x => negb (String.eqb (Deployment_ConnectorID x)
                                                  (Deployment_ConnectorID d)))
                       (mem_deployments s))
     (mem_snapshot s) s).

Definition memGetDeploymentByConnectorId (id : string) (s : MemStore)
  : (ServiceError + ConnectorDeployment) * MemStore :=
  match List.find (fun x => String.eqb (Deployment_ConnectorID x) id) (mem_deployments s) with
  | Some d => (inr d, s)
  | None => (inl (memNotFound "connector deployment not found"), s)
  end.

Definition memSaveStatus (st : ConnectorStatus) (s : MemStore) : option ServiceError * MemStore :=
  if memFails FailSaveStatus s then (Some (GeneralError "failed to save status" []), s)
  else
    (None,
     memTables
       (List.map (fun c =>
                    if String.eqb (Connector_ID c) (Status_ID st) then
                      {| Connector_ID := Connector_ID c;
                         Connector_Owner := Connector_Owner c;
                         Connector_OrganisationId := Connector_OrganisationId c;
                         Connector_NamespaceId := Connector_NamespaceId c;
                         Connector_ConnectorTypeId := Connector_ConnectorTypeId c;
                         Connector_Channel := Connector_Channel c;
                         Connector_DesiredState := Connector_DesiredState c;
                         Connector_Version := Connector_Version c;
                         Connector_Status := st |}
                    else c)
                 (mem_connectors s))
       (mem_deployments s) (mem_snapshot s) s).

Definition memDelete (id : string) (s : MemStore) : option ServiceError * MemStore :=
  (None,
   memTables (List.filter (fun c => negb (String.eqb (Connector_ID c) id)) (mem_connectors s))
     (mem_deployments s) (mem_snapshot s) s).

Definition memNewContext (s : MemStore) : (GoError + Context) * MemStore :=
  if memFails FailNewContext s then (inl (ExternalError "no database connection"), s)
  else (inr (MkContext 1), s).

Definition memUpdateNamespaceId (id : string) (v : option string) (s : MemStore)
  : option GoError * MemStore :=
  if memFails FailUpdateNamespaceId s then (Some (ExternalError "update failed"), s)
  else
    (None,
     memTables
       (List.map (fun c =>
                    if String.eqb (Connector_ID c) id then
                      {| Connector_ID := Connector_ID c;
                         Connector_Owner := Connector_Owner c;
                         Connector_OrganisationId := Connector_OrganisationId c;
                         Connector_NamespaceId := v;
                         Connector_ConnectorTypeId := Connector_ConnectorTypeId c;
                         Connector_Channel := Connector_Channel c;
                         Connector_DesiredState := Connector_DesiredState c;
                         Connector_Version := Connector_Version c;
                         Connector_Status := Connector_Status c |}
                    else c)
                 (mem_connectors s))
       (mem_deployments s) (mem_snapshot s) s).

Definition memBegin (s : MemStore) : option GoError * MemStore :=
  if memFails FailBegin s then (Some (ExternalError "could not begin transaction"), s)
  else (None, memTables (mem_connectors s) (mem_deployments s)
                 (Some (mem_connectors s, mem_deployments s)) s).

Definition memCommit (s : MemStore) : option GoError * MemStore :=
  if memFails FailCommit s then
    (Some (ExternalError "could not commit transaction"),
     match mem_snapshot s with
     | Some (cs, ds) => memTables cs ds None s
     | None => s
     end)
  else (None, memTables (mem_connectors s) (mem_deployments s) None s).

Definition memRollback (s : MemStore) : option GoError * MemStore :=
  match mem_snapshot s with
  | Some (cs, ds) => (None, memTables cs ds None s)
  | None => (None, s)
  end.

Definition memNewID (s : MemStore) : string * MemStore :=
  (default "" (head (mem_freshIDs s)),
   {| mem_connectors := mem_connectors s;
      mem_deployments := mem_deployments s;
      mem_namespaces := mem_namespaces s;
      mem_shardMetadata := mem_shardMetadata s;
      mem_snapshot := mem_snapshot s;
      mem_freshIDs := tail (mem_freshIDs s);
      mem_faults := mem_faults s |}).

Definition memCollaborators (catalog : list (string * string * ConnectorChannelConfig))
  : Collaborators MemStore :=
  {| DeleteUnusedAndNotInCatalog := memFault FailDeleteUnused "failed to delete unused entries";
     catalogEntries := catalog;
     PutConnectorShardMetadata := memPutShardMetadata;
     GetLatestConnectorShardMetadata := memGetLatestShardMetadata;
     CleanupDeployments := memFault FailCleanupDeployments "failed to clean up deployments";
     FindAvailableNamespace := memFindAvailableNamespace;
     SaveDeployment := memSaveDeployment;
     GetDeploymentByConnectorId := memGetDeploymentByConnectorId;
     connectorTable := mem_connectors;
     scanErrors := fun _ s =>
       if memFails FailScan s then [ExternalError "Unable to list connectors"] else [];
     SaveStatus := memSaveStatus;
     Delete := memDelete;
     NewContext := memNewContext;
     UpdateNamespaceId := memUpdateNamespaceId;
     beginTx := memBegin;
     commitTx := memCommit;
     rollbackTx := memRollback;
     NewID := memNewID;
     json_Marshal := fun _ => inr "{}" |}.

(** Concrete rows and worlds. *)

Definition mkConnector (id : string) (ns : option string) (d : ConnectorDesiredState)
  (p : ConnectorStatusPhase) (v : Z) : Connector :=
  {| Connector_ID := id;
     Connector_Owner := "owner";
     Connector_OrganisationId := "org";
     Connector_NamespaceId := ns;
     Connector_ConnectorTypeId := "t";
     Connector_Channel := "stable";
     Connector_DesiredState := d;
     Connector_Version := v;
     Connector_Status :=
       {| Status_ID := id; Status_NamespaceID := ns; Status_Phase := p |} |}.

Definition mkDeployment (id connectorId : string) (v : Z) : ConnectorDeployment :=
  {| Deployment_ID := id;
     Deployment_ConnectorID := connectorId;
     Deployment_ClusterID := "cl-1";
     Deployment_NamespaceID := "ns-1";
     Deployment_ConnectorVersion := v;
     Deployment_ConnectorShardMetadataID := 1 |}.

Definition mkStore (cs : list Connector) (ds : list ConnectorDeployment)
  (ns : list ConnectorNamespace) (faults : list Fault) : MemStore :=
  {| mem_connectors := cs;
     mem_deployments := ds;
     mem_namespaces := ns;
     mem_shardMetadata := [];
     mem_snapshot := None;
     mem_freshIDs := ["id-1"; "id-2"; "id-3"];
     mem_faults := faults |}.

Definition mkWorld (s : MemStore) (lv : Z) (done : bool) (c : option Context) : World MemStore :=
  {| store := s;
     manager := {| lastVersion := lv; startupReconcileDone := done; ctx := c |};
     tx := None;
     journal := [] |}.

(** A world inside an open, unmarked transaction. *)
Definition inTx {S} (w : World S) : World S :=
  withTx (Some {| markedForRollback := false; postCommitActions := [] |}) w.

(** ** The exits of a transaction scope *)

(** The exits of [InDBTransaction f] from a world [w]: the value it
    returns and the world it leaves.  Which cause [MarkForRollback] is
    given is left open. *)
Inductive TxExit {S} (sv : Collaborators S) (f : M S (option GoError)) (w : World S)
  : Outcome (option ServiceError) -> World S -> Prop :=
| ExitBeginFailure e w1 :
    db_Begin sv w = (Returned (Some e), w1) ->
    TxExit sv f w (Returned (Some (GeneralError "failed to create tx: %v" [ArgError e]))) w1
| ExitCommitted w1 w2 w3 :
    db_Begin sv w = (Returned None, w1) ->
    f w1 = (Returned None, w2) ->
    db_Resolve sv w2 = (Returned None, w3) ->
    TxExit sv f w (Returned None) w3
| ExitInnerError e cause w1 w2 w3 w4 :
    db_Begin sv w = (Returned None, w1) ->
    f w1 = (Returned (Some e), w2) ->
    db_MarkForRollback cause w2 = (Returned tt, w3) ->
    db_Resolve sv w3 = (Returned None, w4) ->
    TxExit sv f w (Returned (Some (preserved e))) w4
| ExitResolveFailure e' w1 w2 w3 :
    db_Begin sv w = (Returned None, w1) ->
    f w1 = (Returned None, w2) ->
    db_Resolve sv w2 = (Returned (Some e'), w3) ->
    TxExit sv f w (Returned (Some (GeneralError "failed to resolve tx: %v" [ArgError e']))) w3
| ExitResolveFailureAfterError e cause e' w1 w2 w3 w4 :
    db_Begin sv w = (Returned None, w1) ->
    f w1 = (Returned (Some e), w2) ->
    db_MarkForRollback cause w2 = (Returned tt, w3) ->
    db_Resolve sv w3 = (Returned (Some e'), w4) ->
    TxExit sv f w (Returned (Some (GeneralError "failed to resolve tx: %v" [ArgError e']))) w4
| ExitPanic msg r w1 w2 w3 :
    db_Begin sv w = (Returned None, w1) ->
    f w1 = (Panicked msg, w2) ->
    db_Resolve sv w2 = (Returned r, w3) ->
    TxExit sv f w (Panicked msg) w3.

(** The five phases of a tick, with the reconciler and the row predicate
    [Reconcile] gives each. *)
Inductive ReconcilePhase : Type :=
| PhaseAssigning
| PhaseUnassigned
| PhaseDeleting
| PhaseDeleted
| PhaseUpdated.

Definition phaseName (p : ReconcilePhase) : string :=
  match p with
  | PhaseAssigning => "assigning"
  | PhaseUnassigned => "unassigned"
  | PhaseDeleting => "deleting"
  | PhaseDeleted => "deleted"
  | PhaseUpdated => "updated"
  end.

Definition phaseFunc {S} (sv : Collaborators S) (p : ReconcilePhase)
  : Connector -> M S (option GoError) :=
  match p with
  | PhaseAssigning => reconcileAssigning sv
  | PhaseUnassigned => reconcileUnassigned sv
  | PhaseDeleting => reconcileDeleting sv
  | PhaseDeleted => reconcileDeleted sv
  | PhaseUpdated => reconcileConnectorUpdate sv
  end.

Definition phaseQuery (p : ReconcilePhase) (k : ConnectorManager) : Query :=
  match p with
  | PhaseAssigning => assigningQuery
  | PhaseUnassigned => unassignedQuery
  | PhaseDeleting => deletingQuery
  | PhaseDeleted => deletedQuery
  | PhaseUpdated => updatedQuery (lastVersion k)
  end.

(** One phase of a tick, run from an empty error bag. *)
Definition runPhase {S} (sv : Collaborators S) (p : ReconcilePhase) : M S (list GoError) :=
  fun w => doReconcile sv [] (phaseName p) (phaseFunc sv p) (phaseQuery p (manager w)) w.

(** The transaction [doReconcile] runs for one row. *)
Definition rowTransaction {S} (sv : Collaborators S)
  (reconcileFunc : Connector -> M S (option GoError)) (connector : Connector)
  : M S (option ServiceError) :=
  InDBTransaction sv
    (let! err := reconcileFunc connector in
     match err with
     | Some err => ret (Some err)
     | None => ret None
     end).

(** Journal entries by kind. *)
Definition isForEach (ev : Event) : bool :=
  match ev with CallForEach _ => true | _ => false end.

Definition isBegin (ev : Event) : bool :=
  match ev with CallBegin => true | _ => false end.

Definition isCatalogCall (ev : Event) : bool :=
  match ev with
  | CallDeleteUnusedAndNotInCatalog | CallForEachConnectorCatalogEntry
  | CallPutConnectorShardMetadata _ | CallCleanupDeployments => true
  | _ => false
  end.

(** The calls a row transaction can issue: anything but the catalog
    calls, the context creation and the scan itself. *)
Definition isRowCall (ev : Event) : bool :=
  match ev with
  | CallDeleteUnusedAndNotInCatalog | CallForEachConnectorCatalogEntry
  | CallPutConnectorShardMetadata _ | CallCleanupDeployments
  | CallNewContext | CallForEach _ => false
  | _ => true
  end.


(** Concrete inputs used below. *)

Definition connector9 : Connector :=
  mkConnector "c9" (Some "ns-1") ConnectorReady ConnectorStatusPhaseAssigned 9.
Definition connector8 : Connector :=
  mkConnector "c8" (Some "ns-1") ConnectorReady ConnectorStatusPhaseAssigned 8.

(** Two assigned connectors whose deployments lag behind, the store
    yielding the one with the larger version first. *)
Definition storeTwoUpdates : MemStore :=
  mkStore [connector9; connector8]
    [mkDeployment "d9" "c9" 7; mkDeployment "d8" "c8" 7] [] [].

Definition mem : Collaborators MemStore := memCollaborators [].

Definition fractionalRevision : gmap string GoValue :=
  {[ "connector_revision" := VFloat64 float_1_5 ]}.

(** The world in which the phases of a tick start: the manager's
    context is there already, or [NewContext] has just made it. *)
Inductive ContextReady {S} (sv : Collaborators S) (w : World S) : World S -> Prop :=
| ContextExists c :
    ctx (manager w) = Some c ->
    ContextReady sv w w
| ContextCreated c s :
    ctx (manager w) = None ->
    NewContext sv (store w) = (inr c, s) ->
    ContextReady sv w
      (withManager (setCtx (Some c) (manager w)) (withStore s (record CallNewContext w))).

(** A computation that only appends to the journal, and only entries of
    kind [P]. *)
Definition emits {S A} (P : Event -> bool) (m : M S A) : Prop :=
  forall w r w', m w = (r, w') ->
    exists evs, journal w' = (journal w ++ evs)%list /\ Forall (fun ev => P ev = true) evs.

Definition anyCall (ev : Event) : bool := true.

(** More concrete inputs. *)

Definition context1 : Context := MkContext 1.

Definition worldTwoUpdates : World MemStore :=
  mkWorld storeTwoUpdates 7 true (Some context1).

Definition worldBeginFails : World MemStore :=
  mkWorld (mkStore [connector9] [] [] [FailBegin]) 0 true (Some context1).

Definition worldNoContext : World MemStore :=
  mkWorld (mkStore [connector9] [mkDeployment "d9" "c9" 7] [] [FailNewContext]) 0 true None.

Definition worldCatalogFails : World MemStore :=
  mkWorld (mkStore [connector9] [] [] [FailDeleteUnused]) 0 false None.

(** A catalog whose one entry has no [connector_revision]. *)
Definition memBadCatalog : Collaborators MemStore :=
  memCollaborators [("t", "stable", {| ChannelConfig_ShardMetadata := ∅ |})].

Definition worldStartup : World MemStore :=
  mkWorld (mkStore [connector9] [] [] []) 0 false None.

Definition connectorDeleting : Connector :=
  mkConnector "c3" (Some "ns-1") ConnectorDeleted ConnectorStatusPhaseDeleting 3.

Definition worldDeleting : World MemStore :=
  mkWorld (mkStore [connectorDeleting] [] [] []) 0 true (Some context1).

Definition worldDeletingUpdateFails : World MemStore :=
  mkWorld (mkStore [connectorDeleting] [] [] [FailUpdateNamespaceId]) 0 true (Some context1).

Definition connectorAssigning : Connector :=
  mkConnector "c1" (Some "ns-1") ConnectorReady ConnectorStatusPhaseAssigning 1.

Definition worldNoNamespace : World MemStore :=
  mkWorld (mkStore [connectorAssigning] [] [] []) 0 true (Some context1).

Definition worldOneUpdate : World MemStore :=
  inTx (mkWorld (mkStore [connector8] [mkDeployment "d8" "c8" 7] [] []) 7 true (Some context1)).

Definition worldUpToDate : World MemStore :=
  inTx (mkWorld (mkStore [connector9] [mkDeployment "d9" "c9" 9] [] []) 7 true (Some context1)).

(** Two rows in phase deleting: the first cannot be updated, the second
    still has its deployment. *)
Definition connectorDeleting2 : Connector :=
  mkConnector "c4" (Some "ns-1") ConnectorDeleted ConnectorStatusPhaseDeleting 4.

Definition worldRowFails : World MemStore :=
  mkWorld (mkStore [connectorDeleting; connectorDeleting2] [mkDeployment "d4" "c4" 4] []
             [FailUpdateNamespaceId]) 0 true (Some context1).

(** More journal entries by kind. *)
Definition isCommit (ev : Event) : bool :=
  match ev with CallCommit => true | _ => false end.

Definition isRollback (ev : Event) : bool :=
  match ev with CallRollback => true | _ => false end.

Definition isNewContext (ev : Event) : bool :=
  match ev with CallNewContext => true | _ => false end.

Definition isSaveDeployment (ev : Event) : bool :=
  match ev with CallSaveDeployment _ => true | _ => false end.

Definition isSaveStatus (ev : Event) : bool :=
  match ev with CallSaveStatus _ => true | _ => false end.

(** The manager after a tick seen from the manager before it: the
    version mark is not lower, a set startup flag is still set, a
    context is still the same context. *)
Definition advances (k k' : ConnectorManager) : Prop :=
  lastVersion k <= lastVersion k'
  /\ (startupReconcileDone k = true -> startupReconcileDone k' = true)
  /\ (forall c, ctx k = Some c -> ctx k' = Some c).

Definition worldStartupNoContext : World MemStore :=
  mkWorld (mkStore [connector9] [] [] [FailNewContext]) 0 false None.

Definition connectorUnassigned : Connector :=
  mkConnector "c5" (Some "ns-1") ConnectorUnassigned ConnectorStatusPhaseDeleted 5.

(** ** The startup check worker

    [NewConnectorManager] calls [runStartupReconcileCheckWorker], which
    starts a goroutine: while [startupReconcileDone] is unset it asks
    [CatalogEntriesReconciled] of the connector types service; it sets
    the flag when the answer is true, logs an error, and sleeps five
    seconds on a false answer.  The goroutine runs beside the ticks and
    shares the flag with them.  Here its loop is run for a number of
    passes at a time, as between two ticks.  The check is the worker's
    own call and is given as its argument; the wait group released when
    the loop ends is not part of the state. *)







(** * The Kafka service (package [services], kafka.go)

    The functions of the Kafka service whose logic stands on its own:
    status updates and counts, the capacity check of a region, the
    sizes still available in a region, and the DNS record batch.  The
    database and the configuration they consult are a record of
    operations over a store [S], as for the connector manager. *)

Record KafkaRequest : Type := {
  Kafka_ID : string;
  Kafka_Region : string;
  Kafka_CloudProvider : string;
  Kafka_InstanceType : string;
  Kafka_SizeId : string;
  Kafka_MultiAZ : bool;
  Kafka_Status : string;
  Kafka_Owner : string
}.

(** [config.KafkaInstanceSize] and [config.KafkaInstanceType], the
    fields used here. *)
Record KafkaInstanceSize : Type := {
  Size_Id : string;
  Size_CapacityConsumed : Z
}.

Record KafkaInstanceType : Type := {
  InstanceType_Id : string;
  InstanceType_Sizes : list KafkaInstanceSize
}.

Record FindClusterCriteria : Type := {
  Criteria_Provider : string;
  Criteria_Region : string;
  Criteria_MultiAZ : bool;
  Criteria_SupportedInstanceType : string
}.

Record KafkaStatusCount : Type := {
  StatusCount_Status : string;
  StatusCount_Count : Z
}.

Record DataPlaneKafkaRoute : Type := {
  Route_Domain : string;
  Route_Router : string
}.

(** [route53.Change] with its one resource record set. *)
Record Route53Change : Type := {
  Change_Action : string;
  Change_Name : string;
  Change_Type : string;
  Change_TTL : Z;
  Change_ResourceRecords : list string
}.

(** What the Kafka service is constructed with: the database, the
    provider, data plane and Kafka configuration, the cluster placement
    strategy, and the error codes of package [errors] it uses. *)
Record KafkaCollaborators (S : Type) : Type := {
  KafkaRequestStatusDeprovision : string;
  KafkaRequestStatusDeleting : string;
  ErrorValidation : ErrorCode;
  ErrorInstancePlanNotSupported : ErrorCode;
  ErrorInstanceTypeNotSupported : ErrorCode;
  HandleGetError : string -> string -> string -> GoError -> ServiceError;
  (* gorm, through connectionFactory.New() *)
  firstKafkaById : string -> S -> (GoError + KafkaRequest) * S;
  updateStatusColumn : string -> string -> S -> option GoError * S;
  scanStatusCounts : list string -> S -> (GoError + list KafkaStatusCount) * S;
  scanKafkas : string -> string -> string -> S -> (GoError + list KafkaRequest) * S;
  (* configuration *)
  GetInstanceLimit : string -> string -> string -> ServiceError + option Z;
  IsDataPlaneAutoScalingEnabled : bool;
  GetKafkaInstanceSize : string -> string -> GoError + KafkaInstanceSize;
  GetKafkaInstanceTypeByID : string -> GoError + KafkaInstanceType;
  (* clusterPlacementStrategy *)
  FindCluster : KafkaRequest -> S -> (ServiceError + option string) * S
}.

Arguments KafkaRequestStatusDeprovision {S}.
Arguments KafkaRequestStatusDeleting {S}.
Arguments ErrorValidation {S}.
Arguments ErrorInstancePlanNotSupported {S}.
Arguments ErrorInstanceTypeNotSupported {S}.
Arguments HandleGetError {S}.
Arguments firstKafkaById {S}.
Arguments updateStatusColumn {S}.
Arguments scanStatusCounts {S}.
Arguments scanKafkas {S}.
Arguments GetInstanceLimit {S}.
Arguments IsDataPlaneAutoScalingEnabled {S}.
Arguments GetKafkaInstanceSize {S}.
Arguments GetKafkaInstanceTypeByID {S}.
Arguments FindCluster {S}.

(** [errors.NewWithCause(code, cause, reason, values...)] *)
Definition NewWithCause (code : ErrorCode) (cause : GoError) (reason : string)
  (values : list FmtArg) : ServiceError :=
  MkServiceError code reason (values ++ [ArgError cause]).

(** Addition on [int64], wrapping around. *)
Definition wrap64 (z : Z) : Z := (z + 2 ^ 63) mod 2 ^ 64 - 2 ^ 63.

Section KafkaService.

Context {S : Type} (ks : KafkaCollaborators S).

(** [GetById] *)
Definition GetById (id : string) (s : S) : (ServiceError + KafkaRequest) * S :=
  if String.eqb id "" then
    (inl (MkServiceError (ErrorValidation ks) "id is undefined" []), s)
  else
    let '(found, s1) := firstKafkaById ks id s in
    match found with
    | inl err => (inl (HandleGetError ks "KafkaResource" "id" id err), s1)
    | inr kafkaRequest => (inr kafkaRequest, s1)
    end.

(** [UpdateStatus]: the boolean and the error it returns. *)
Definition UpdateStatus (id status : string) (s : S) : (bool * option ServiceError) * S :=
  let '(found, s1) := GetById id s in
  match found with
  | inl err =>
      ((true, Some (NewWithCause ErrorGeneral (OfServiceError err) "failed to update status" [])),
       s1)
  | inr kafka =>
      if String.eqb (Kafka_Status kafka) (KafkaRequestStatusDeprovision ks)
         && negb (String.eqb status (KafkaRequestStatusDeleting ks))
      then
        ((false, Some (GeneralError "failed to update status: cluster is deprovisioning" [])), s1)
      else if String.eqb (Kafka_Status kafka) status then
        ((false,
          Some (GeneralError "failed to update status: the cluster %s is already in %s state"
                  [ArgString id; ArgString status])),
         s1)
      else
        let '(err, s2) := updateStatusColumn ks id status s1 in
        match err with
        | Some err =>
            ((true, Some (NewWithCause ErrorGeneral err "Failed to update kafka status" [])), s2)
        | None => ((true, None), s2)
        end
  end.

(** [CountByStatus]: the counters map is filled from the rows of the
    query; a requested status without a row gets a zero count. *)
Definition countersMapOf (results : list KafkaStatusCount) : gmap string Z :=
  foldl (fun countersMap r => <[StatusCount_Status r := StatusCount_Count r]> countersMap)
        ∅ results.

Fixpoint appendMissing (countersMap : gmap string Z) (status : list string)
  (results : list KafkaStatusCount) : list KafkaStatusCount :=
  match status with
  | [] => results
  | st :: rest =>
      match countersMap !! st with
      | Some _ => appendMissing countersMap rest results
      | None =>
          appendMissing countersMap rest
            (results ++ [{| StatusCount_Status := st; StatusCount_Count := 0 |}])
      end
  end.

Definition CountByStatus (status : list string) (s : S)
  : (GoError + list KafkaStatusCount) * S :=
  let '(scanned, s1) := scanStatusCounts ks status s in
  match scanned with
  | inl err => (inl (OfServiceError (NewWithCause ErrorGeneral err "Failed to count kafkas" [])), s1)
  | inr results =>
      match status with
      | [] => (inr results, s1)
      | _ :: _ => (inr (appendMissing (countersMapOf results) status results), s1)
      end
  end.

(** [capacityAvailableForRegionAndInstanceType]: the loop that sums what
    the Kafkas of the region consume, then the check against the limit. *)
Fixpoint sumCapacityConsumed (kafkas : list KafkaRequest) (count : Z) : GoError + Z :=
  match kafkas with
  | [] => inr count
  | kafka :: rest =>
      match GetKafkaInstanceSize ks (Kafka_InstanceType kafka) (Kafka_SizeId kafka) with
      | inl e => inl e
      | inr kafkaInstanceSize =>
          sumCapacityConsumed rest (wrap64 (count + Size_CapacityConsumed kafkaInstanceSize))
      end
  end.

Definition capacityErrMessage (kafkaRequest : KafkaRequest) : string :=
  "Failed to check kafka capacity for region '" +:+ Kafka_Region kafkaRequest
  +:+ "' and instance type '" +:+ Kafka_InstanceType kafkaRequest +:+ "'".

Definition capacityAvailableForRegionAndInstanceType (instTypeRegCapacity : option Z)
  (kafkaRequest : KafkaRequest) (s : S) : (bool * option ServiceError) * S :=
  let errMessage := capacityErrMessage kafkaRequest in
  let '(scanned, s1) :=
    scanKafkas ks (Kafka_Region kafkaRequest) (Kafka_CloudProvider kafkaRequest)
      (Kafka_InstanceType kafkaRequest) s in
  match scanned with
  | inl err => ((false, Some (NewWithCause ErrorGeneral err errMessage [])), s1)
  | inr kafkas =>
      match sumCapacityConsumed kafkas 0 with
      | inl e =>
          ((false, Some (NewWithCause (ErrorInstancePlanNotSupported ks) e errMessage [])), s1)
      | inr count =>
          match GetKafkaInstanceSize ks (Kafka_InstanceType kafkaRequest)
                  (Kafka_SizeId kafkaRequest) with
          | inl e =>
              ((false, Some (NewWithCause (ErrorInstancePlanNotSupported ks) e errMessage [])),
               s1)
          | inr kafkaInstanceSize =>
              let count := wrap64 (count + Size_CapacityConsumed kafkaInstanceSize) in
              ((match instTypeRegCapacity with
                | None => true
                | Some limit => count <=? limit
                end, None), s1)
          end
      end
  end.

(** [HasAvailableCapacityInRegion] *)
Definition HasAvailableCapacityInRegion (kafkaRequest : KafkaRequest) (s : S)
  : (bool * option ServiceError) * S :=
  match GetInstanceLimit ks (Kafka_Region kafkaRequest) (Kafka_CloudProvider kafkaRequest)
          (Kafka_InstanceType kafkaRequest) with
  | inl e => ((false, Some e), s)
  | inr regInstTypeLimit =>
      match regInstTypeLimit with
      | Some 0 => ((false, None), s)
      | _ =>
          if IsDataPlaneAutoScalingEnabled ks
             && match regInstTypeLimit with None => true | Some _ => false end
          then ((true, None), s)
          else capacityAvailableForRegionAndInstanceType regInstTypeLimit kafkaRequest s
      end
  end.

(** [GetAvailableSizesInRegion].  The loop runs from the largest size
    down: [larger_first] is the configured sizes reversed, its head the
    size under test, its tail the smaller ones. *)
Fixpoint availableSizesFrom (criteria : FindClusterCriteria)
  (larger_first : list KafkaInstanceSize) (s : S) : (list string * option ServiceError) * S :=
  match larger_first with
  | [] => (([], None), s)
  | size :: smaller =>
      let kafka :=
        {| Kafka_ID := "";
           Kafka_Region := Criteria_Region criteria;
           Kafka_CloudProvider := Criteria_Provider criteria;
           Kafka_InstanceType := Criteria_SupportedInstanceType criteria;
           Kafka_SizeId := Size_Id size;
           Kafka_MultiAZ := Criteria_MultiAZ criteria;
           Kafka_Status := "";
           Kafka_Owner := "" |} in
      let '((hasCapacity, err), s1) := HasAvailableCapacityInRegion kafka s in
      match err with
      | Some err => (([], Some err), s1)
      | None =>
          if hasCapacity then
            let '(found, s2) := FindCluster ks kafka s1 in
            match found with
            | inl err => (([], Some err), s2)
            | inr (Some cluster) => ((List.map Size_Id (rev (size :: smaller)), None), s2)
            | inr None => availableSizesFrom criteria smaller s2
            end
          else availableSizesFrom criteria smaller s1
      end
  end.

Definition GetAvailableSizesInRegion (criteria : option FindClusterCriteria) (s : S)
  : (list string * option ServiceError) * S :=
  match criteria with
  | None =>
      (([], Some (GeneralError
                    "unable to get available sizes in region: criteria was not specified" [])),
       s)
  | Some criteria =>
      match GetKafkaInstanceTypeByID ks (Criteria_SupportedInstanceType criteria) with
      | inl err =>
          (([], Some (MkServiceError (ErrorInstanceTypeNotSupported ks)
                        "unable to get available sizes in region: %s" [ArgError err])), s)
      | inr instanceType =>
          availableSizesFrom criteria (rev (InstanceType_Sizes instanceType)) s
      end
  end.

End KafkaService.

(** The request the loop of [GetAvailableSizesInRegion] checks for one
    size of the instance type. *)
Definition sizeRequest (criteria : FindClusterCriteria) (size : KafkaInstanceSize)
  : KafkaRequest :=
  {| Kafka_ID := "";
     Kafka_Region := Criteria_Region criteria;
     Kafka_CloudProvider := Criteria_Provider criteria;
     Kafka_InstanceType := Criteria_SupportedInstanceType criteria;
     Kafka_SizeId := Size_Id size;
     Kafka_MultiAZ := Criteria_MultiAZ criteria;
     Kafka_Status := "";
     Kafka_Owner := "" |}.

(** The loop going past sizes, largest first, from store [s] to store
    [s']: for each of them the region has no capacity, or it has and no
    cluster can take the size. *)
Inductive SizesRefused {S} (ks : KafkaCollaborators S) (criteria : FindClusterCriteria)
  : list KafkaInstanceSize -> S -> S -> Prop :=
| RefusedNone s : SizesRefused ks criteria [] s s
| RefusedNoCapacity size smaller s s1 s2 :
    HasAvailableCapacityInRegion ks (sizeRequest criteria size) s = ((false, None), s1) ->
    SizesRefused ks criteria smaller s1 s2 ->
    SizesRefused ks criteria (size :: smaller) s s2
| RefusedNoCluster size smaller s s1 s2 s3 :
    HasAvailableCapacityInRegion ks (sizeRequest criteria size) s = ((true, None), s1) ->
    FindCluster ks (sizeRequest criteria size) s1 = (inr None, s2) ->
    SizesRefused ks criteria smaller s2 s3 ->
    SizesRefused ks criteria (size :: smaller) s s3.

(** What a Kafka consumes of its region's capacity according to the
    configuration (nothing when its size is not configured), and the sum
    over a list of Kafkas, as integers without bound. *)
Definition capacityOf {S} (ks : KafkaCollaborators S) (kafka : KafkaRequest) : Z :=
  match GetKafkaInstanceSize ks (Kafka_InstanceType kafka) (Kafka_SizeId kafka) with
  | inr kafkaInstanceSize => Size_CapacityConsumed kafkaInstanceSize
  | inl _ => 0
  end.

Definition totalCapacity {S} (ks : KafkaCollaborators S) (kafkas : list KafkaRequest) : Z :=
  fold_right (fun kafka total => capacityOf ks kafka + total) 0 kafkas.

(** [buildResourceRecordChange] *)
Definition buildResourceRecordChange (recordName clusterIngress action : string)
  : Route53Change :=
  let recordType := "CNAME" in
  let recordTTL := 300 in
  {| Change_Action := action;
     Change_Name := recordName;
     Change_Type := recordType;
     Change_TTL := recordTTL;
     Change_ResourceRecords := [clusterIngress] |}.

(** [buildKafkaClusterCNAMESRecordBatch]: the changes of the batch,
    appended route by route. *)
Definition buildKafkaClusterCNAMESRecordBatch (routes : list DataPlaneKafkaRoute)
  (action : string) : list Route53Change :=
  foldl (fun changes r =>
           (changes ++ [buildResourceRecordChange (Route_Domain r) (Route_Router r) action])%list)
        [] routes.

(** [buildKafkaOwner] *)
Definition buildKafkaOwner (owner : string) (EnableKafkaOwnerConfig : bool)
  (KafkaOwnerList : list string) : list string :=
  if EnableKafkaOwnerConfig then ([owner] ++ KafkaOwnerList)%list else [owner].

(** A Kafka service on a list of Kafkas held in memory, with two sizes
    of the standard instance type and a limit of 5 units per region. *)
Definition memSizes : list KafkaInstanceSize :=
  [{| Size_Id := "x1"; Size_CapacityConsumed := 1 |};
   {| Size_Id := "x2"; Size_CapacityConsumed := 2 |}].

Definition memKafkaSize (instanceType sizeId : string) : GoError + KafkaInstanceSize :=
  match List.find (fun sz => String.eqb (Size_Id sz) sizeId) memSizes with
  | Some sz => inr sz
  | None => inl (ExternalError "size not found")
  end.

Definition memSetStatus (id status : string) (k : KafkaRequest) : KafkaRequest :=
  if String.eqb (Kafka_ID k) id then
    {| Kafka_ID := Kafka_ID k;
       Kafka_Region := Kafka_Region k;
       Kafka_CloudProvider := Kafka_CloudProvider k;
       Kafka_InstanceType := Kafka_InstanceType k;
       Kafka_SizeId := Kafka_SizeId k;
       Kafka_MultiAZ := Kafka_MultiAZ k;
       Kafka_Status := status;
       Kafka_Owner := Kafka_Owner k |}
  else k.

Definition memKafka : KafkaCollaborators (list KafkaRequest) :=
  {| KafkaRequestStatusDeprovision := "deprovision";
     KafkaRequestStatusDeleting := "deleting";
     ErrorValidation := ErrorCodeOther 8;
     ErrorInstancePlanNotSupported := ErrorCodeOther 43;
     ErrorInstanceTypeNotSupported := ErrorCodeOther 41;
     HandleGetError := fun resourceType field value err =>
       MkServiceError ErrorNotFound "%s with %s='%s' not found"
         [ArgString resourceType; ArgString field; ArgString value];
     firstKafkaById := fun id s =>
       match List.find (fun k => String.eqb (Kafka_ID k) id) s with
       | Some k => (inr k, s)
       | None => (inl (ExternalError "record not found"), s)
       end;
     updateStatusColumn := fun id status s => (None, List.map (memSetStatus id status) s);
     scanStatusCounts := fun status s =>
       (inr (List.map (fun st =>
                         {| StatusCount_Status := st;
                            StatusCount_Count :=
                              Z.of_nat (length (List.filter
                                (fun k => String.eqb (Kafka_Status k) st) s)) |})
               (List.filter (fun st => existsb (fun k => String.eqb (Kafka_Status k) st) s)
                  (remove_dups status))), s);
     scanKafkas := fun region provider instanceType s =>
       (inr (List.filter (fun k => String.eqb (Kafka_Region k) region
                                   && String.eqb (Kafka_CloudProvider k) provider
                                   && String.eqb (Kafka_InstanceType k) instanceType) s), s);
     GetInstanceLimit := fun region provider instanceType => inr (Some 5);
     IsDataPlaneAutoScalingEnabled := false;
     GetKafkaInstanceSize := memKafkaSize;
     GetKafkaInstanceTypeByID := fun id =>
       if String.eqb id "standard" then
         inr {| InstanceType_Id := "standard"; InstanceType_Sizes := memSizes |}
       else inl (ExternalError "instance type not found");
     FindCluster := fun kafka s => (inr (Some "cluster-1"), s) |}.

Definition mkKafka (id status sizeId : string) : KafkaRequest :=
  {| Kafka_ID := id;
     Kafka_Region := "us-east-1";
     Kafka_CloudProvider := "aws";
     Kafka_InstanceType := "standard";
     Kafka_SizeId := sizeId;
     Kafka_MultiAZ := true;
     Kafka_Status := status;
     Kafka_Owner := "owner" |}.

Definition memKafkas : list KafkaRequest :=
  [mkKafka "k1" "ready" "x2"; mkKafka "k2" "deprovision" "x2"].

Definition standardCriteria : FindClusterCriteria :=
  {| Criteria_Provider := "aws";
     Criteria_Region := "us-east-1";
     Criteria_MultiAZ := true;
     Criteria_SupportedInstanceType := "standard" |}.

(** ** Proof steps *)

(** Case analysis on the next result the goal branches on. *)
Ltac step :=
  match goal with
  | |- context [match ?x with pair _ _ => _ end] =>
      lazymatch x with
      | pair _ _ => fail
      | context [match _ with _ => _ end] => fail
      | _ => destruct x as [? ?] eqn:?
      end
  | |- context [match ?x with Some _ => _ | None => _ end] =>
      lazymatch x with
      | context [match _ with _ => _ end] => fail
      | _ => destruct x eqn:?
      end
  | |- context [match ?x with inl _ => _ | inr _ => _ end] =>
      lazymatch x with
      | context [match _ with _ => _ end] => fail
      | _ => destruct x eqn:?
      end
  | |- context [if ?x then _ else _] =>
      lazymatch x with
      | context [match _ with _ => _ end] => fail
      | _ => destruct x eqn:?
      end
  end; simpl.

(** Unfolding the engine's monad and the transaction functions. *)
Ltac unfold_engine :=
  unfold rowTransaction, InDBTransaction, deferring, db_Begin, db_Resolve, db_MarkForRollback,
    db_AddPostCommitAction, bind, call, ret, lift, getManager, modifyManager in *.

(** * Properties *)

(** ** The catalog revision *)

Example int64_of_float64_3 : int64_of_float64 float_3 = 3.
Proof. reflexivity. Qed.

Example int64_of_float64_1_5 : int64_of_float64 float_1_5 = 1.
Proof. reflexivity. Qed.

Example int64_of_float64_minus_1_5 : int64_of_float64 (S754_finite true 3 (-1)) = -1.
Proof. reflexivity. Qed.

Example float_1_5_not_integral : float64_is_integral float_1_5 = false.
Proof. reflexivity. Qed.

(** A nil value under the key makes the function panic while it builds
    its error message. *)
Lemma GetShardMetadataRevision_nil (m : gmap string GoValue) :
  m !! "connector_revision" = Some VNil ->
  exists msg, GetShardMetadataRevision m = Panicked msg.
Proof.
  intros H. unfold GetShardMetadataRevision. rewrite H. simpl. eauto.
Qed.

Lemma GetShardMetadataRevision_missing (m : gmap string GoValue) :
  m !! "connector_revision" = None ->
  returnsError (GetShardMetadataRevision m) = true.
Proof.
  intros H. unfold GetShardMetadataRevision. now rewrite H.
Qed.

Lemma GetShardMetadataRevision_float64 (m : gmap string GoValue) (f : spec_float) :
  m !! "connector_revision" = Some (VFloat64 f) ->
  GetShardMetadataRevision m = Returned (int64_of_float64 f, None).
Proof.
  intros H. unfold GetShardMetadataRevision. now rewrite H.
Qed.

(** C4, as stated, fails: a float64 with a fraction is not numerically
    integral, yet the function returns no error for it (and returns the
    truncated value). *)
Lemma GetShardMetadataRevision_fraction_accepted :
  specRevisionFails fractionalRevision = true
  /\ GetShardMetadataRevision fractionalRevision = Returned (1, None)
  /\ ~ (forall m, returnsError (GetShardMetadataRevision m) = true
                  <-> specRevisionFails m = true).
Proof.
  split; [reflexivity | split; [reflexivity |]].
  intros H. destruct (H fractionalRevision) as [_ H2].
  specialize (H2 eq_refl). vm_compute in H2. discriminate.
Qed.

(** C4, amended: for a map whose [connector_revision] is not nil, the
    function returns an error exactly when the key is missing or its
    value is not a float64; for a float64 value it returns that value
    converted to int64, the fraction cut off, and a zero revision comes
    with every error. *)
Theorem GetShardMetadataRevision_float64_or_error (m : gmap string GoValue) :
  m !! "connector_revision" <> Some VNil ->
  (returnsError (GetShardMetadataRevision m) = true
   <-> (m !! "connector_revision" = None
        \/ exists v, m !! "connector_revision" = Some v /\ forall f, v <> VFloat64 f))
  /\ (forall f, m !! "connector_revision" = Some (VFloat64 f) ->
        GetShardMetadataRevision m = Returned (int64_of_float64 f, None))
  /\ (returnsError (GetShardMetadataRevision m) = true ->
        exists e, GetShardMetadataRevision m = Returned (0, Some e)).
Proof.
  intros Hnil. unfold GetShardMetadataRevision.
  destruct (m !! "connector_revision") as [v|] eqn:E.
  - destruct v as [| b | n | f | s | l | l]; try congruence.
    all: try (simpl; split; [split; [intros _; right; eexists; split;
                                       [reflexivity | intros f; discriminate]
                                    | reflexivity]
                            | split; [intros f Hf; discriminate | intros _; eauto]]).
    simpl. split; [split; [discriminate |] | split; [| discriminate]].
    + intros [H | (v & Hv & Hf)]; [discriminate |].
      injection Hv as <-. now destruct (Hf f).
    + intros f0 Hf0. now injection Hf0 as ->.
  - simpl. split; [split; auto | split; [discriminate | eauto]].
Qed.

Lemma GetShardMetadataRevision_float64_or_error_witness :
  let m : gmap string GoValue := {[ "connector_revision" := VString "7" ]} in
  returnsError (GetShardMetadataRevision m) = true.
Proof.
  intros m.
  apply (proj1 (GetShardMetadataRevision_float64_or_error m ltac:(vm_compute; discriminate))).
  right. exists (VString "7"). split; [reflexivity | intros f; discriminate].
Defined.

(** ** The transaction scope *)

Section Transactions.

Context {S : Type} (sv : Collaborators S).

Lemma db_Begin_returns (w : World S) :
  exists r w', db_Begin sv w = (Returned r, w').
Proof.
  unfold db_Begin, bind, call, ret.
  destruct (beginTx sv (store w)) as [[e|] s]; eauto.
Qed.

Lemma db_Resolve_returns (w : World S) :
  exists r w', db_Resolve sv w = (Returned r, w').
Proof.
  unfold db_Resolve, bind, call, ret, modifyManager. simpl.
  destruct (tx w) as [t|]; [| eauto].
  destruct (markedForRollback t); simpl.
  - destruct (rollbackTx sv (store w)) as [e s]; eauto.
  - destruct (commitTx sv (store w)) as [[e|] s]; eauto.
Qed.

Lemma db_MarkForRollback_returns (cause : option GoError) (w : World S) :
  exists w', db_MarkForRollback cause w = (Returned tt, w').
Proof.
  unfold db_MarkForRollback. simpl. destruct (tx w); eauto.
Qed.

(** What [InDBTransaction] does after a successful [Begin]. *)
Lemma InDBTransaction_begun (f : M S (option GoError)) (w w1 : World S) :
  db_Begin sv w = (Returned None, w1) ->
  InDBTransaction sv f w =
    match f w1 with
    | (Returned None, w2) =>
        match db_Resolve sv w2 with
        | (Returned (Some e'), w3) =>
            (Returned (Some (GeneralError "failed to resolve tx: %v" [ArgError e'])), w3)
        | (Returned None, w3) => (Returned None, w3)
        | (Panicked msg, w3) => (Panicked msg, w3)
        end
    | (Returned (Some e), w2) =>
        match db_Resolve sv (snd (db_MarkForRollback None w2)) with
        | (Returned (Some e'), w4) =>
            (Returned (Some (GeneralError "failed to resolve tx: %v" [ArgError e'])), w4)
        | (Returned None, w4) => (Returned (Some (preserved e)), w4)
        | (Panicked msg, w4) => (Panicked msg, w4)
        end
    | (Panicked msg, w2) =>
        match db_Resolve sv w2 with
        | (Returned _, w3) => (Panicked msg, w3)
        | (Panicked msg', w3) => (Panicked msg', w3)
        end
    end.
Proof.
  intros Hb. unfold InDBTransaction. unfold bind at 1. rewrite Hb.
  unfold deferring, bind, ret.
  destruct (f w1) as [[[e|]|msg] w2]; simpl.
  - destruct (db_MarkForRollback_returns None w2) as [w3 ->]. simpl.
    destruct (db_Resolve sv w3) as [[[e'|]|msg] w4]; reflexivity.
  - destruct (db_Resolve sv w2) as [[[e'|]|msg] w3]; reflexivity.
  - destruct (db_Resolve sv w2) as [[[e'|]|msg'] w3]; reflexivity.
Qed.

Lemma InDBTransaction_not_begun (f : M S (option GoError)) (w w1 : World S) (e : GoError) :
  db_Begin sv w = (Returned (Some e), w1) ->
  InDBTransaction sv f w =
    (Returned (Some (GeneralError "failed to create tx: %v" [ArgError e])), w1).
Proof.
  intros Hb. unfold InDBTransaction. unfold bind at 1. now rewrite Hb.
Qed.

(** C1, amended: [InDBTransaction] begins a transaction; when that
    fails it returns the begin failure and runs neither [f] nor the
    resolve step.  Otherwise it invokes [f] once; on an inner error it
    marks the transaction for rollback, and on every exit after a
    successful begin, a panic of [f] included, the resolve step runs
    once.  The result is the begin failure, the resolve failure, or the
    inner error preserved (nil when [f] succeeded). *)
Theorem InDBTransaction_exits (f : M S (option GoError)) (w : World S) :
  exists r w', InDBTransaction sv f w = (r, w') /\ TxExit sv f w r w'.
Proof.
  destruct (db_Begin_returns w) as ([e|] & w1 & Hb).
  - rewrite (InDBTransaction_not_begun f w w1 e Hb).
    eexists _, _. split; [reflexivity |]. now apply ExitBeginFailure.
  - rewrite (InDBTransaction_begun f w w1 Hb).
    destruct (f w1) as [[[e|]|msg] w2] eqn:Hf.
    + destruct (db_MarkForRollback_returns None w2) as [w3 Hm]. rewrite Hm. simpl.
      destruct (db_Resolve_returns w3) as ([e'|] & w4 & Hr); rewrite Hr;
        eexists _, _; (split; [reflexivity |]).
      * eapply ExitResolveFailureAfterError; eauto.
      * eapply ExitInnerError; eauto.
    + destruct (db_Resolve_returns w2) as ([e'|] & w3 & Hr); rewrite Hr;
        eexists _, _; (split; [reflexivity |]).
      * eapply ExitResolveFailure; eauto.
      * eapply ExitCommitted; eauto.
    + destruct (db_Resolve_returns w2) as (r & w3 & Hr). rewrite Hr.
      eexists _, _. split; [reflexivity |]. eapply ExitPanic; eauto.
Qed.

End Transactions.

(** C1, as stated, fails: when [Begin] fails, [InDBTransaction] returns
    the begin failure at once; [f] (here a row deletion) is not invoked
    and the resolve step does not run on that exit. *)
Lemma InDBTransaction_begin_failure_skips_resolve :
  let '(r, w) := InDBTransaction mem (reconcileDeleted mem connector9) worldBeginFails in
  r = Returned (Some (GeneralError "failed to create tx: %v"
                        [ArgError (ExternalError "could not begin transaction")]))
  /\ journal w = [CallBegin]
  /\ ~ In CallResolve (journal w)
  /\ ~ In (CallDelete "c9") (journal w).
Proof.
  vm_compute. repeat split; intros [H | []]; discriminate.
Qed.

(** On an inner error the rollback mark is set with the named result,
    which is still nil at that point, whatever the inner error is. *)
Lemma InDBTransaction_rollback_cause {S} (sv : Collaborators S)
  (f : M S (option GoError)) (w w1 w2 : World S) (e : GoError) :
  db_Begin sv w = (Returned None, w1) ->
  f w1 = (Returned (Some e), w2) ->
  exists w3 evs,
    snd (InDBTransaction sv f w) = w3
    /\ journal w3 = (journal w2 ++ CallMarkForRollback None :: CallResolve :: evs)%list.
Proof.
  intros Hb Hf. rewrite (InDBTransaction_begun sv f w w1 Hb), Hf.
  unfold_engine. cbn zeta. simpl. repeat step;
    eexists _, _; (split; [reflexivity |]); simpl; rewrite <- ?app_assoc; reflexivity.
Qed.

(** ** Row transactions *)

Section Rows.

Context {S : Type} (sv : Collaborators S).

(** A row transaction of any phase returns, journals [CallBegin] first,
    and after it only calls of a row, none of them another begin. *)
Lemma rowTransaction_journal (p : ReconcilePhase) (c : Connector) (w : World S) :
  exists r w' evs,
    rowTransaction sv (phaseFunc sv p) c w = (Returned r, w')
    /\ journal w' = (journal w ++ CallBegin :: evs)%list
    /\ Forall (fun ev => isRowCall ev = true /\ isBegin ev = false) evs.
Proof.
  destruct p; simpl;
    unfold reconcileAssigning, reconcileUnassigned, reconcileDeleting, reconcileDeleted,
      reconcileConnectorUpdate;
    unfold_engine; simpl; repeat step;
    eexists _, _, _; (split; [reflexivity |]); simpl; rewrite <- ?app_assoc; simpl;
    (split; [reflexivity |]); repeat constructor.
Qed.

(** The version high-water mark after a row transaction of the update
    phase: left as it was, or the version of the row. *)
Lemma update_row_lastVersion (c : Connector) (w : World S) :
  exists r w',
    rowTransaction sv (reconcileConnectorUpdate sv) c w = (Returned r, w')
    /\ (lastVersion (manager w') = lastVersion (manager w)
        \/ lastVersion (manager w') = Connector_Version c)
    /\ (r = None -> lastVersion (manager w') = Connector_Version c).
Proof.
  unfold reconcileConnectorUpdate; unfold_engine; simpl; repeat step;
    eexists _, _; (split; [reflexivity |]); simpl; (split; [auto |]);
    intros; congruence || reflexivity.
Qed.

End Rows.

(** ** Scans *)

Section Scans.

Context {S : Type} (sv : Collaborators S).

Lemma doReconcile_unfold (errs : list GoError) (name : string)
  (f : Connector -> M S (option GoError)) (q : Query) (w : World S) :
  doReconcile sv errs name f q w =
    match forEachRow (rowTransaction sv f) (selectedRows sv q (store w))
            (record (CallForEach q) w) with
    | (Returned _, w') =>
        (Returned (match scanErrors sv q (store w) with
                   | [] => errs
                   | _ :: _ => errs ++ scanErrors sv q (store w)
                   end)%list, w')
    | (Panicked msg, w') => (Panicked msg, w')
    end.
Proof.
  unfold doReconcile, ForEach.
  set (F := fun connector : Connector => InDBTransaction sv _).
  change F with (rowTransaction sv f). clear F.
  unfold bind, ret.
  destruct (forEachRow (rowTransaction sv f) (selectedRows sv q (store w))
              (record (CallForEach q) w)) as [[[]|msg] w']; [| reflexivity].
  destruct (scanErrors sv q (store w)); reflexivity.
Qed.

(** A scan goes through all its rows, whatever their transactions
    return. *)
Lemma forEachRow_phase (p : ReconcilePhase) (rows : list Connector) (w : World S) :
  exists w' evs,
    forEachRow (rowTransaction sv (phaseFunc sv p)) rows w = (Returned tt, w')
    /\ journal w' = (journal w ++ evs)%list
    /\ Forall (fun ev => isRowCall ev = true) evs
    /\ length (List.filter isBegin evs) = length rows.
Proof.
  revert w. induction rows as [| c rows IH]; intros w.
  - exists w, []. simpl. rewrite app_nil_r. repeat split; constructor.
  - destruct (rowTransaction_journal sv p c w) as (r & w1 & evs1 & Hrow & Hj1 & Hevs1).
    destruct (IH w1) as (w2 & evs2 & Hrest & Hj2 & Hevs2 & Hcount).
    exists w2, (CallBegin :: evs1 ++ evs2)%list.
    simpl. unfold bind. rewrite Hrow, Hrest. split; [reflexivity |].
    split; [rewrite Hj2, Hj1, <- app_assoc; reflexivity |].
    split.
    + constructor; [reflexivity |]. apply Forall_app. split; [| assumption].
      eapply Forall_impl; [eassumption |]. now intros ev [H _].
    + f_equal. rewrite List.filter_app, length_app, Hcount.
      assert (Hnone : List.filter isBegin evs1 = []).
      { clear - Hevs1. induction Hevs1 as [| ev evs [_ Hb] _ IHevs]; [reflexivity |].
        simpl. now rewrite Hb. }
      now rewrite Hnone.
Qed.

Lemma forEachRow_split (p : ReconcilePhase) (pre post : list Connector) (c : Connector)
  (w : World S) :
  exists w1 r w2,
    forEachRow (rowTransaction sv (phaseFunc sv p)) pre w = (Returned tt, w1)
    /\ rowTransaction sv (phaseFunc sv p) c w1 = (Returned r, w2)
    /\ forEachRow (rowTransaction sv (phaseFunc sv p)) (pre ++ c :: post) w
       = forEachRow (rowTransaction sv (phaseFunc sv p)) post w2.
Proof.
  revert w. induction pre as [| x pre IH]; intros w.
  - destruct (rowTransaction_journal sv p c w) as (r & w1 & evs1 & Hrow & _).
    exists w, r, w1. simpl. unfold bind, ret. rewrite Hrow. auto.
  - destruct (rowTransaction_journal sv p x w) as (r & w1 & evs1 & Hrow & _).
    destruct (IH w1) as (w2 & r2 & w3 & Hpre & Hc & Hall).
    exists w2, r2, w3. simpl. unfold bind. rewrite Hrow. auto.
Qed.

(** What [doReconcile] returns and journals for a phase. *)
Lemma doReconcile_journal (errs : list GoError) (p : ReconcilePhase) (q : Query)
  (w : World S) :
  exists w' evs,
    doReconcile sv errs (phaseName p) (phaseFunc sv p) q w
      = (Returned (errs ++ scanErrors sv q (store w))%list, w')
    /\ forEachRow (rowTransaction sv (phaseFunc sv p)) (selectedRows sv q (store w))
         (record (CallForEach q) w) = (Returned tt, w')
    /\ journal w' = (journal w ++ CallForEach q :: evs)%list
    /\ Forall (fun ev => isRowCall ev = true) evs.
Proof.
  destruct (forEachRow_phase p (selectedRows sv q (store w)) (record (CallForEach q) w))
    as (w' & evs & Hrows & Hj & Hevs & _).
  exists w', evs. rewrite doReconcile_unfold, Hrows.
  split; [| split; [reflexivity | split; [| assumption]]].
  - f_equal. f_equal.
    destruct (scanErrors sv q (store w)); [now rewrite app_nil_r | reflexivity].
  - rewrite Hj. simpl. now rewrite <- app_assoc.
Qed.

(** C9: in the scan of any phase, each selected row gets its
    transaction: the row [c] after any rows [pre] is attempted in the
    world they left, whatever their transactions returned, and the scan
    goes on to the rows [post] after it; one transaction is begun per
    selected row.  What [doReconcile] adds to the error bag is the
    service-level errors of the scan, no error of a row. *)
Theorem doReconcile_rows_independent (errs : list GoError) (p : ReconcilePhase) (q : Query)
  (w : World S) :
  exists w' evs,
    doReconcile sv errs (phaseName p) (phaseFunc sv p) q w
      = (Returned (errs ++ scanErrors sv q (store w))%list, w')
    /\ journal w' = (journal w ++ CallForEach q :: evs)%list
    /\ Forall (fun ev => isRowCall ev = true) evs
    /\ length (List.filter isBegin evs) = length (selectedRows sv q (store w))
    /\ forall pre c post,
         selectedRows sv q (store w) = (pre ++ c :: post)%list ->
         exists w1 r w2,
           forEachRow (rowTransaction sv (phaseFunc sv p)) pre (record (CallForEach q) w)
             = (Returned tt, w1)
           /\ rowTransaction sv (phaseFunc sv p) c w1 = (Returned r, w2)
           /\ forEachRow (rowTransaction sv (phaseFunc sv p)) post w2 = (Returned tt, w').
Proof.
  destruct (forEachRow_phase p (selectedRows sv q (store w)) (record (CallForEach q) w))
    as (w' & evs & Hrows & Hj & Hevs & Hcount).
  exists w', evs. rewrite doReconcile_unfold, Hrows.
  split.
  { f_equal. f_equal. destruct (scanErrors sv q (store w)); [now rewrite app_nil_r | reflexivity]. }
  split; [rewrite Hj; simpl; rewrite <- app_assoc; reflexivity |].
  split; [assumption |]. split; [assumption |].
  intros pre c post Hsel.
  destruct (forEachRow_split p pre post c (record (CallForEach q) w))
    as (w1 & r & w2 & Hpre & Hc & Hall).
  exists w1, r, w2. rewrite <- Hall, <- Hsel. auto.
Qed.

End Scans.

(** ** A tick *)

Section Ticks.

Context {S : Type} (sv : Collaborators S).

Lemma row_calls_no_scan (evs : list Event) :
  Forall (fun ev => isRowCall ev = true) evs -> List.filter isForEach evs = [].
Proof.
  induction 1 as [| ev evs Hev _ IH]; [reflexivity |].
  simpl. destruct ev; try discriminate; simpl; assumption.
Qed.

(** A phase run with a bag [errs] is the phase run alone, its errors
    appended to the bag. *)
Lemma doReconcile_runPhase (errs : list GoError) (p : ReconcilePhase) (w : World S) :
  exists e w' evs,
    runPhase sv p w = (Returned e, w')
    /\ doReconcile sv errs (phaseName p) (phaseFunc sv p) (phaseQuery p (manager w)) w
       = (Returned (errs ++ e)%list, w')
    /\ journal w' = (journal w ++ CallForEach (phaseQuery p (manager w)) :: evs)%list
    /\ Forall (fun ev => isRowCall ev = true) evs.
Proof.
  unfold runPhase.
  destruct (doReconcile_journal sv [] p (phaseQuery p (manager w)) w)
    as (w1 & evs1 & H1 & Hrows1 & Hj1 & Hevs1).
  destruct (doReconcile_journal sv errs p (phaseQuery p (manager w)) w)
    as (w2 & evs2 & H2 & Hrows2 & _).
  assert (w2 = w1) as -> by congruence.
  eexists _, w1, evs1. simpl in H1. eauto.
Qed.

Lemma reconcilePhases_in_order (errs : list GoError) (w0 : World S) :
  exists e1 w1 e2 w2 e3 w3 e4 w4 e5 w5,
    runPhase sv PhaseAssigning w0 = (Returned e1, w1)
    /\ runPhase sv PhaseUnassigned w1 = (Returned e2, w2)
    /\ runPhase sv PhaseDeleting w2 = (Returned e3, w3)
    /\ runPhase sv PhaseDeleted w3 = (Returned e4, w4)
    /\ runPhase sv PhaseUpdated w4 = (Returned e5, w5)
    /\ reconcilePhases sv errs w0 = (Returned (errs ++ e1 ++ e2 ++ e3 ++ e4 ++ e5)%list, w5)
    /\ List.filter isForEach (journal w5)
       = (List.filter isForEach (journal w0)
          ++ [CallForEach assigningQuery; CallForEach unassignedQuery;
              CallForEach deletingQuery; CallForEach deletedQuery;
              CallForEach (updatedQuery (lastVersion (manager w4)))])%list.
Proof.
  destruct (doReconcile_runPhase errs PhaseAssigning w0)
    as (e1 & w1 & evs1 & Hp1 & Hd1 & Hj1 & Hevs1).
  destruct (doReconcile_runPhase (errs ++ e1) PhaseUnassigned w1)
    as (e2 & w2 & evs2 & Hp2 & Hd2 & Hj2 & Hevs2).
  destruct (doReconcile_runPhase ((errs ++ e1) ++ e2) PhaseDeleting w2)
    as (e3 & w3 & evs3 & Hp3 & Hd3 & Hj3 & Hevs3).
  destruct (doReconcile_runPhase (((errs ++ e1) ++ e2) ++ e3) PhaseDeleted w3)
    as (e4 & w4 & evs4 & Hp4 & Hd4 & Hj4 & Hevs4).
  destruct (doReconcile_runPhase ((((errs ++ e1) ++ e2) ++ e3) ++ e4) PhaseUpdated w4)
    as (e5 & w5 & evs5 & Hp5 & Hd5 & Hj5 & Hevs5).
  exists e1, w1, e2, w2, e3, w3, e4, w4, e5, w5.
  repeat (split; [assumption |]).
  split.
  - unfold reconcilePhases, bind, getManager, ret. simpl in *.
    rewrite Hd1, Hd2, Hd3, Hd4, Hd5. now rewrite <- !app_assoc.
  - rewrite Hj5, Hj4, Hj3, Hj2, Hj1. simpl.
    repeat (rewrite List.filter_app; simpl).
    rewrite (row_calls_no_scan evs1 Hevs1), (row_calls_no_scan evs2 Hevs2),
      (row_calls_no_scan evs3 Hevs3), (row_calls_no_scan evs4 Hevs4),
      (row_calls_no_scan evs5 Hevs5).
    simpl. rewrite <- !app_assoc. reflexivity.
Qed.

(** C8, as stated, fails: on a tick after startup on which the manager
    has no context yet and [NewContext] fails, [Reconcile] returns that
    error and runs none of the five phases. *)
Lemma Reconcile_without_context_skips_phases :
  startupReconcileDone (manager worldNoContext) = true
  /\ Reconcile mem worldNoContext
     = (Returned [ExternalError "no database connection"],
        record CallNewContext worldNoContext)
  /\ List.filter isForEach (journal (snd (Reconcile mem worldNoContext))) = [].
Proof.
  vm_compute. auto.
Qed.

(** C8, amended: every tick after startup on which the manager's
    context exists or is created runs the five phases in the order
    assigning, unassigned, deleting, deleted, updated, each in the world
    the one before left and whatever errors the earlier ones produced;
    [Reconcile] returns the errors of the five phases, in that order, in
    one bag. *)
Theorem Reconcile_phases_in_order (w w0 : World S) :
  startupReconcileDone (manager w) = true ->
  ContextReady sv w w0 ->
  exists e1 w1 e2 w2 e3 w3 e4 w4 e5 w5,
    runPhase sv PhaseAssigning w0 = (Returned e1, w1)
    /\ runPhase sv PhaseUnassigned w1 = (Returned e2, w2)
    /\ runPhase sv PhaseDeleting w2 = (Returned e3, w3)
    /\ runPhase sv PhaseDeleted w3 = (Returned e4, w4)
    /\ runPhase sv PhaseUpdated w4 = (Returned e5, w5)
    /\ Reconcile sv w = (Returned (e1 ++ e2 ++ e3 ++ e4 ++ e5)%list, w5)
    /\ List.filter isForEach (journal w5)
       = (List.filter isForEach (journal w)
          ++ [CallForEach assigningQuery; CallForEach unassignedQuery;
              CallForEach deletingQuery; CallForEach deletedQuery;
              CallForEach (updatedQuery (lastVersion (manager w4)))])%list.
Proof.
  intros Hdone Hctx.
  destruct (reconcilePhases_in_order [] w0)
    as (e1 & w1 & e2 & w2 & e3 & w3 & e4 & w4 & e5 & w5 & H1 & H2 & H3 & H4 & H5 & Hall & Hj).
  exists e1, w1, e2, w2, e3, w3, e4, w4, e5, w5.
  repeat (split; [assumption |]).
  assert (Hrun : Reconcile sv w = reconcilePhases sv [] w0
                 /\ List.filter isForEach (journal w0) = List.filter isForEach (journal w)).
  { unfold Reconcile, bind, getManager, ret, call, modifyManager. simpl. rewrite Hdone. simpl.
    destruct Hctx as [c Hc | c s Hc Hnew].
    - rewrite Hc. auto.
    - rewrite Hc, Hnew. simpl. split; [reflexivity |].
      rewrite List.filter_app. simpl. now rewrite app_nil_r. }
  destruct Hrun as [-> <-]. split; assumption.
Qed.

End Ticks.

Lemma Reconcile_phases_in_order_witness :
  exists e1 w1 e2 w2 e3 w3 e4 w4 e5 w5,
    runPhase mem PhaseAssigning worldTwoUpdates = (Returned e1, w1)
    /\ runPhase mem PhaseUnassigned w1 = (Returned e2, w2)
    /\ runPhase mem PhaseDeleting w2 = (Returned e3, w3)
    /\ runPhase mem PhaseDeleted w3 = (Returned e4, w4)
    /\ runPhase mem PhaseUpdated w4 = (Returned e5, w5)
    /\ Reconcile mem worldTwoUpdates = (Returned (e1 ++ e2 ++ e3 ++ e4 ++ e5)%list, w5)
    /\ List.filter isForEach (journal w5)
       = (List.filter isForEach (journal worldTwoUpdates)
          ++ [CallForEach assigningQuery; CallForEach unassignedQuery;
              CallForEach deletingQuery; CallForEach deletedQuery;
              CallForEach (updatedQuery (lastVersion (manager w4)))])%list.
Proof.
  apply (Reconcile_phases_in_order mem worldTwoUpdates worldTwoUpdates).
  - reflexivity.
  - apply (ContextExists mem worldTwoUpdates context1). reflexivity.
Defined.

Lemma doReconcile_rows_independent_witness :
  exists w1 r w2,
    forEachRow (rowTransaction mem (phaseFunc mem PhaseDeleting)) [connectorDeleting]
      (record (CallForEach deletingQuery) worldRowFails) = (Returned tt, w1)
    /\ rowTransaction mem (phaseFunc mem PhaseDeleting) connectorDeleting2 w1 = (Returned r, w2)
    /\ forEachRow (rowTransaction mem (phaseFunc mem PhaseDeleting)) [] w2
       = (Returned tt, snd (doReconcile mem [] "deleting" (reconcileDeleting mem) deletingQuery
                              worldRowFails)).
Proof.
  destruct (doReconcile_rows_independent mem [] PhaseDeleting deletingQuery worldRowFails)
    as (w' & evs & Hrun & _ & _ & _ & Hrows).
  destruct (Hrows [connectorDeleting] connectorDeleting2 [] eq_refl) as (w1 & r & w2 & H).
  exists w1, r, w2. simpl phaseName in Hrun. simpl phaseFunc in Hrun at 1.
  rewrite Hrun. exact H.
Defined.

(** The first row of that scan fails and is rolled back, the second is
    still attempted, and the bag stays empty. *)
Example failing_row_does_not_stop_scan :
  let '(r, w) := doReconcile mem [] "deleting" (reconcileDeleting mem) deletingQuery
                   worldRowFails in
  r = Returned []
  /\ journal w =
     [CallForEach deletingQuery;
      CallBegin; CallGetDeploymentByConnectorId "c3"; CallUpdateNamespaceId "c3" None;
      CallMarkForRollback None; CallResolve; CallRollback;
      CallBegin; CallGetDeploymentByConnectorId "c4"; CallResolve; CallCommit].
Proof. vm_compute. auto. Qed.

(** ** The version high-water mark *)

Section HighWaterMark.

Context {S : Type} (sv : Collaborators S).

Lemma selected_by_update (lv : Z) (s : S) (c : Connector) :
  In c (selectedRows sv (updatedQuery lv) s) -> lv < Connector_Version c.
Proof.
  unfold selectedRows. rewrite List.filter_In. intros [_ Hm].
  unfold matches, updatedQuery in Hm. apply andb_true_iff in Hm as [Hlt _].
  now apply Z.ltb_lt.
Qed.

(** After any rows of the update phase, the mark is where it was or at
    the version of one of them. *)
Lemma update_rows_lastVersion (rows : list Connector) (w : World S) :
  exists w',
    forEachRow (rowTransaction sv (reconcileConnectorUpdate sv)) rows w = (Returned tt, w')
    /\ (lastVersion (manager w') = lastVersion (manager w)
        \/ exists x, In x rows /\ lastVersion (manager w') = Connector_Version x).
Proof.
  revert w. induction rows as [| c rows IH]; intros w.
  - exists w. simpl. auto.
  - destruct (update_row_lastVersion sv c w) as (r & w1 & Hrow & Hlv & _).
    destruct (IH w1) as (w2 & Hrest & Hlv2).
    exists w2. simpl. unfold bind. rewrite Hrow. split; [assumption |].
    destruct Hlv2 as [Hsame | (x & Hx & Hv)].
    + rewrite Hsame. destruct Hlv as [Hlv | Hlv]; [auto |].
      right. exists c. simpl. auto.
    + right. exists x. simpl. auto.
Qed.

(** C2, amended: a committed row of the update phase assigns the row's
    version to [lastVersion]; no maximum is taken.  Every row of a scan
    has a version above the mark the scan started from, so in any order
    of the rows the mark is never below that, before and after every
    row; and across the transaction of a row [c] the mark does not
    decrease when no row scanned before [c] has a larger version, as
    when the rows come in non-decreasing version order. *)
Theorem lastVersion_nondecreasing_in_version_order (w : World S)
  (pre post : list Connector) (c : Connector) :
  selectedRows sv (updatedQuery (lastVersion (manager w))) (store w) = (pre ++ c :: post)%list ->
  exists w1 r w2,
    forEachRow (rowTransaction sv (reconcileConnectorUpdate sv)) pre
      (record (CallForEach (updatedQuery (lastVersion (manager w)))) w) = (Returned tt, w1)
    /\ rowTransaction sv (reconcileConnectorUpdate sv) c w1 = (Returned r, w2)
    /\ lastVersion (manager w) < Connector_Version c
    /\ lastVersion (manager w) <= lastVersion (manager w1)
    /\ lastVersion (manager w) <= lastVersion (manager w2)
    /\ (lastVersion (manager w2) = lastVersion (manager w1)
        \/ lastVersion (manager w2) = Connector_Version c)
    /\ (r = None -> lastVersion (manager w2) = Connector_Version c)
    /\ (Forall (fun x => Connector_Version x <= Connector_Version c) pre ->
        lastVersion (manager w1) <= lastVersion (manager w2)).
Proof.
  intros Hsel.
  set (w0 := record (CallForEach (updatedQuery (lastVersion (manager w)))) w).
  destruct (update_rows_lastVersion pre w0) as (w1 & Hpre & Hlv1).
  destruct (update_row_lastVersion sv c w1) as (r & w2 & Hrow & Hlv2 & Hcommit).
  exists w1, r, w2.
  assert (Habove : forall x, In x (pre ++ c :: post)%list ->
                     lastVersion (manager w) < Connector_Version x).
  { intros x Hx. apply (selected_by_update _ (store w)). now rewrite Hsel. }
  assert (Hc : lastVersion (manager w) < Connector_Version c).
  { apply Habove, in_or_app. right. now left. }
  assert (Hw1 : lastVersion (manager w) <= lastVersion (manager w1)).
  { destruct Hlv1 as [Hsame | (x & Hx & Hv)].
    - rewrite Hsame. simpl. lia.
    - rewrite Hv. apply Z.lt_le_incl, Habove, in_or_app. now left. }
  split; [assumption |]. split; [assumption |]. split; [assumption |].
  split; [assumption |]. split; [destruct Hlv2 as [-> | ->]; lia |].
  split; [assumption |]. split; [assumption |].
  intros Hord.
  assert (Hle : lastVersion (manager w1) <= Connector_Version c).
  { destruct Hlv1 as [Hsame | (x & Hx & Hv)].
    - rewrite Hsame. simpl. lia.
    - rewrite Hv. rewrite List.Forall_forall in Hord. now apply Hord. }
  destruct Hlv2 as [-> | ->]; lia.
Qed.

End HighWaterMark.

Lemma lastVersion_nondecreasing_in_version_order_witness :
  let w := mkWorld (mkStore [connector8; connector9]
                      [mkDeployment "d9" "c9" 7; mkDeployment "d8" "c8" 7] [] [])
             7 true (Some context1) in
  exists w1 r w2,
    forEachRow (rowTransaction mem (reconcileConnectorUpdate mem)) [connector8]
      (record (CallForEach (updatedQuery 7)) w) = (Returned tt, w1)
    /\ rowTransaction mem (reconcileConnectorUpdate mem) connector9 w1 = (Returned r, w2)
    /\ 7 <= lastVersion (manager w1)
    /\ 7 <= lastVersion (manager w2)
    /\ lastVersion (manager w1) <= lastVersion (manager w2)
    /\ (lastVersion (manager w2) = lastVersion (manager w1)
        \/ lastVersion (manager w2) = 9)
    /\ (r = None -> lastVersion (manager w2) = 9).
Proof.
  intros w.
  destruct (lastVersion_nondecreasing_in_version_order mem w [connector8] [] connector9
              eq_refl) as (w1 & r & w2 & Hpre & Hrow & _ & Hw1 & Hw2 & Hassign & Hnil & Hord).
  exists w1, r, w2. repeat (split; [assumption |]).
  split; [| split; assumption].
  apply Hord. repeat constructor. simpl. lia.
Defined.

(** C2, as stated, fails: the store yields the row of version 9 before
    the row of version 8, both above the mark 7.  Both transactions
    commit; the mark is 9 after the first and 8 after the second, which
    is below the value before that commit and is not the maximum. *)
Lemma lastVersion_decreases_out_of_order :
  selectedRows mem (updatedQuery 7) storeTwoUpdates = [connector9; connector8]
  /\ let '(r1, w1) := rowTransaction mem (reconcileConnectorUpdate mem) connector9
                        (record (CallForEach (updatedQuery 7)) worldTwoUpdates) in
     let '(r2, w2) := rowTransaction mem (reconcileConnectorUpdate mem) connector8 w1 in
     r1 = Returned None /\ r2 = Returned None
     /\ lastVersion (manager w1) = 9
     /\ lastVersion (manager w2) = 8
     /\ lastVersion (manager w2) < lastVersion (manager w1)
     /\ lastVersion (manager w2)
        <> Z.max (lastVersion (manager w1)) (Connector_Version connector8)
     /\ snd (runPhase mem PhaseUpdated worldTwoUpdates) = w2.
Proof.
  vm_compute. repeat split; congruence.
Qed.

Section UpdateRegistration.

Context {S : Type} (sv : Collaborators S).

(** C10, amended: inside a transaction, [reconcileConnectorUpdate]
    queues the action that assigns the row's version to [lastVersion] on
    every path: when the deployment cannot be fetched, when the versions
    are equal and nothing is written, and when the deployment is saved.
    After a row transaction that committed, a no-op one included,
    [lastVersion] is the row's version; and the row does not match the
    predicate of the update phase as long as [lastVersion] is not below
    its version. *)
Theorem reconcileConnectorUpdate_registers_lastVersion (c : Connector) (w : World S) :
  (forall t, tx w = Some t ->
     exists r w',
       reconcileConnectorUpdate sv c w = (Returned r, w')
       /\ tx w' = Some {| markedForRollback := markedForRollback t;
                          postCommitActions :=
                            postCommitActions t ++ [setLastVersion (Connector_Version c)] |})
  /\ (forall w',
        rowTransaction sv (reconcileConnectorUpdate sv) c w = (Returned None, w') ->
        lastVersion (manager w') = Connector_Version c)
  /\ (forall lv, Connector_Version c <= lv -> matches (updatedQuery lv) c = false).
Proof.
  split; [| split].
  - intros t Ht. unfold reconcileConnectorUpdate; unfold_engine; simpl.
    repeat step; simplify_eq; eexists _, _; (split; [reflexivity |]); reflexivity.
  - intros w' Hrun.
    destruct (update_row_lastVersion sv c w) as (r & w1 & Hrow & _ & Hcommit).
    rewrite Hrow in Hrun. injection Hrun as -> ->. now apply Hcommit.
  - intros lv Hlv. unfold matches, updatedQuery.
    apply andb_false_iff. left. apply Z.ltb_ge. exact Hlv.
Qed.

End UpdateRegistration.

Lemma reconcileConnectorUpdate_registers_lastVersion_witness :
  lastVersion (manager (snd (rowTransaction mem (reconcileConnectorUpdate mem) connector8
                               (mkWorld (mkStore [connector8] [mkDeployment "d8" "c8" 8] [] [])
                                  7 true (Some context1)))))
  = 8
  /\ matches (updatedQuery 8) connector8 = false.
Proof.
  pose proof (reconcileConnectorUpdate_registers_lastVersion mem connector8
                (mkWorld (mkStore [connector8] [mkDeployment "d8" "c8" 8] [] [])
                   7 true (Some context1))) as (_ & Hcommit & Hskip).
  split.
  - apply Hcommit. reflexivity.
  - apply Hskip. simpl. lia.
Defined.

(** C10, as stated, fails: in one tick the row of version 9 is
    committed before the row of version 8, so the tick ends with
    [lastVersion] at 8.  The row of version 9 is unchanged and its
    deployment is up to date, yet the predicate of the next tick's
    update phase selects it again. *)
Lemma committed_row_selected_again :
  let '(r9, w9) := rowTransaction mem (reconcileConnectorUpdate mem) connector9
                     (record (CallForEach (updatedQuery 7)) worldTwoUpdates) in
  let '(r, w1) := Reconcile mem worldTwoUpdates in
  r9 = Returned None
  /\ lastVersion (manager w9) = Connector_Version connector9
  /\ r = Returned []
  /\ lastVersion (manager w1) = 8
  /\ connectorTable mem (store w1) = [connector9; connector8]
  /\ fst (GetDeploymentByConnectorId mem "c9" (store w1)) = inr (mkDeployment "d9" "c9" 9)
  /\ selectedRows mem (updatedQuery (lastVersion (manager w1))) (store w1) = [connector9].
Proof.
  vm_compute. repeat split.
Qed.

(** ** Startup *)

Section Startup.

Context {S : Type} (sv : Collaborators S).

Lemma emits_ret {A} (P : Event -> bool) (a : A) : emits P (ret (S := S) a).
Proof.
  intros w r w' H. injection H as <- <-. exists []. rewrite app_nil_r. auto.
Qed.

Lemma emits_bind {A B} (P : Event -> bool) (m : M S A) (f : A -> M S B) :
  emits P m -> (forall a, emits P (f a)) -> emits P (bind m f).
Proof.
  intros Hm Hf w r w' H. unfold bind in H.
  destruct (m w) as [[a|msg] w1] eqn:E.
  - destruct (Hm _ _ _ E) as (evs1 & Hj1 & Hevs1).
    destruct (Hf a _ _ _ H) as (evs2 & Hj2 & Hevs2).
    exists (evs1 ++ evs2)%list. rewrite Hj2, Hj1, <- app_assoc.
    split; [reflexivity | now apply Forall_app].
  - injection H as <- <-. eauto.
Qed.

Lemma emits_call {A} (P : Event -> bool) (ev : Event) (op : S -> A * S) :
  P ev = true -> emits P (call ev op).
Proof.
  intros HP w r w' H. unfold call in H. destruct (op (store w)) as [a s].
  injection H as <- <-. exists [ev]. simpl. auto.
Qed.

Lemma emits_lift {A} (P : Event -> bool) (o : Outcome A) : emits P (lift (S := S) o).
Proof.
  intros w r w' H. injection H as <- <-. exists []. rewrite app_nil_r. auto.
Qed.

Lemma emits_getManager (P : Event -> bool) : emits P (getManager (S := S)).
Proof.
  intros w r w' H. injection H as <- <-. exists []. rewrite app_nil_r. auto.
Qed.

Lemma emits_modifyManager (P : Event -> bool) (f : ConnectorManager -> ConnectorManager) :
  emits P (modifyManager (S := S) f).
Proof.
  intros w r w' H. injection H as <- <-. exists []. simpl. rewrite app_nil_r. auto.
Qed.

Lemma emits_weaken {A} (P Q : Event -> bool) (m : M S A) :
  (forall ev, P ev = true -> Q ev = true) -> emits P m -> emits Q m.
Proof.
  intros HPQ Hm w r w' H. destruct (Hm _ _ _ H) as (evs & Hj & Hevs).
  exists evs. split; [assumption |]. eapply Forall_impl; eauto.
Qed.

Ltac emits_step :=
  match goal with
  | |- emits _ (ret _) => apply emits_ret
  | |- emits _ (bind _ _) => apply emits_bind; [| intros ?]
  | |- emits _ (call _ _) => apply emits_call; reflexivity
  | |- emits _ (lift _) => apply emits_lift
  | |- emits _ getManager => apply emits_getManager
  | |- emits _ (modifyManager _) => apply emits_modifyManager
  | |- emits _ (match ?x with _ => _ end) => destruct x
  end.

Lemma ReconcileConnectorCatalogEntry_emits (id channel : string) (cfg : ConnectorChannelConfig) :
  emits isCatalogCall (ReconcileConnectorCatalogEntry sv id channel cfg).
Proof.
  unfold ReconcileConnectorCatalogEntry. repeat emits_step.
Qed.

Lemma forEachEntry_emits (entries : list (string * string * ConnectorChannelConfig)) :
  emits isCatalogCall (forEachEntry (ReconcileConnectorCatalogEntry sv) entries).
Proof.
  induction entries as [| [[id channel] cfg] rest IH]; simpl.
  - apply emits_ret.
  - apply emits_bind; [apply ReconcileConnectorCatalogEntry_emits |].
    intros [e|]; [apply emits_ret | exact IH].
Qed.

Lemma ForEachConnectorCatalogEntry_emits :
  emits isCatalogCall (ForEachConnectorCatalogEntry sv (ReconcileConnectorCatalogEntry sv)).
Proof.
  intros w r w' H. unfold ForEachConnectorCatalogEntry in H.
  destruct (forEachEntry_emits _ _ _ _ H) as (evs & Hj & Hevs).
  exists (CallForEachConnectorCatalogEntry :: evs). simpl in Hj.
  rewrite Hj, <- app_assoc. split; [reflexivity |]. now constructor.
Qed.

(** The pass over the catalog entries does not touch the manager. *)
Lemma ReconcileConnectorCatalogEntry_manager (id channel : string)
  (cfg : ConnectorChannelConfig) (w : World S) r w' :
  ReconcileConnectorCatalogEntry sv id channel cfg w = (r, w') ->
  manager w' = manager w.
Proof.
  unfold ReconcileConnectorCatalogEntry, bind, lift, call, ret.
  destruct (GetShardMetadataRevision _) as [[revision [e|]]|msg]; simpl.
  - intros H. now inversion H.
  - destruct (json_Marshal sv _) as [e|bytes]; [intros H; now inversion H |].
    destruct (PutConnectorShardMetadata sv _ (store w)) as [[e|] s];
      intros H; now inversion H.
  - intros H. now inversion H.
Qed.

Lemma forEachEntry_manager (entries : list (string * string * ConnectorChannelConfig))
  (w : World S) r w' :
  forEachEntry (ReconcileConnectorCatalogEntry sv) entries w = (r, w') ->
  manager w' = manager w.
Proof.
  revert w. induction entries as [| [[id channel] cfg] rest IH]; simpl; intros w H.
  - now injection H as <- <-.
  - unfold bind in H.
    destruct (ReconcileConnectorCatalogEntry sv id channel cfg w) as [[[e|]|msg] w1] eqn:E;
      apply ReconcileConnectorCatalogEntry_manager in E.
    + injection H as <- <-. exact E.
    + rewrite <- E. now apply IH.
    + injection H as <- <-. exact E.
Qed.

Lemma doReconcile_emits (errs : list GoError) (p : ReconcilePhase) (q : Query) :
  emits anyCall (doReconcile sv errs (phaseName p) (phaseFunc sv p) q).
Proof.
  intros w r w' H.
  destruct (doReconcile_journal sv errs p q w) as (w1 & evs & Hrun & _ & Hj & _).
  rewrite Hrun in H. injection H as <- <-.
  exists (CallForEach q :: evs). split; [assumption |].
  apply List.Forall_forall. reflexivity.
Qed.

Lemma reconcilePhases_emits (errs : list GoError) : emits anyCall (reconcilePhases sv errs).
Proof.
  unfold reconcilePhases.
  apply emits_bind; [apply (doReconcile_emits _ PhaseAssigning) | intros ?].
  apply emits_bind; [apply (doReconcile_emits _ PhaseUnassigned) | intros ?].
  apply emits_bind; [apply (doReconcile_emits _ PhaseDeleting) | intros ?].
  apply emits_bind; [apply (doReconcile_emits _ PhaseDeleted) | intros ?].
  apply emits_bind; [apply emits_getManager | intros ?].
  apply emits_bind; [apply (doReconcile_emits _ PhaseUpdated) | intros ?].
  apply emits_ret.
Qed.

(** [Reconcile] only adds to the journal. *)
Lemma Reconcile_emits : emits anyCall (Reconcile sv).
Proof.
  unfold Reconcile.
  repeat first
    [ apply reconcilePhases_emits
    | apply (emits_weaken isCatalogCall anyCall); [reflexivity |];
      apply ForEachConnectorCatalogEntry_emits
    | emits_step ].
Qed.





Lemma ForEachConnectorCatalogEntry_manager (w : World S) r w' :
  ForEachConnectorCatalogEntry sv (ReconcileConnectorCatalogEntry sv) w = (r, w') ->
  manager w' = manager w.
Proof.
  unfold ForEachConnectorCatalogEntry. intros H. now apply forEachEntry_manager in H.
Qed.



End Startup.

(** ** The per-row reconcilers *)

Section Reconcilers.

Context {S : Type} (sv : Collaborators S).

(** C5: for a row of the update phase whose deployment is fetched: when
    the deployment's connector version differs from the connector's, the
    reconciler issues one save, of the deployment with its connector
    version set to the connector's current version, whatever the
    deployment held before; when the two are equal it issues no write,
    leaves the store as the lookup left it and, inside a transaction,
    returns no error. *)
Theorem reconcileConnectorUpdate_single_save (c : Connector) (w : World S)
  (d : ConnectorDeployment) (s1 : S) :
  GetDeploymentByConnectorId sv (Connector_ID c) (store w) = (inr d, s1) ->
  (Deployment_ConnectorVersion d <> Connector_Version c ->
     exists serr s2 r w',
       SaveDeployment sv (setConnectorVersion (Connector_Version c) d) s1 = (serr, s2)
       /\ reconcileConnectorUpdate sv c w = (Returned r, w')
       /\ store w' = s2
       /\ journal w' =
          (journal w ++ [CallGetDeploymentByConnectorId (Connector_ID c);
                         CallSaveDeployment (setConnectorVersion (Connector_Version c) d);
                         CallAddPostCommitAction])%list
       /\ Deployment_ConnectorVersion (setConnectorVersion (Connector_Version c) d)
          = Connector_Version c)
  /\ (Deployment_ConnectorVersion d = Connector_Version c ->
        exists r w',
          reconcileConnectorUpdate sv c w = (Returned r, w')
          /\ store w' = s1
          /\ journal w' =
             (journal w ++ [CallGetDeploymentByConnectorId (Connector_ID c);
                            CallAddPostCommitAction])%list
          /\ (tx w <> None -> r = None)).
Proof.
  intros Hget. split; intros Hv.
  - destruct (SaveDeployment sv (setConnectorVersion (Connector_Version c) d) s1)
      as [serr s2] eqn:Hsave.
    exists serr, s2.
    unfold reconcileConnectorUpdate; unfold_engine; simpl. rewrite Hget. simpl.
    rewrite (bool_decide_eq_true_2 _ Hv). simpl. rewrite Hsave. simpl.
    destruct serr; simpl; destruct (tx w); simpl; eexists _, _;
      (split; [reflexivity |]); (split; [reflexivity |]); simpl;
      rewrite <- ?app_assoc; simpl; auto.
  - unfold reconcileConnectorUpdate; unfold_engine; simpl. rewrite Hget. simpl.
    rewrite bool_decide_eq_false_2 by (intros H; now apply H). simpl.
    destruct (tx w); simpl; eexists _, _;
      (split; [reflexivity |]); simpl; rewrite <- ?app_assoc; simpl;
      repeat split; congruence.
Qed.

(** C6: for a row of the deleting phase: when the deployment lookup
    answers 404, the reconciler sets the connector's [namespace_id] to
    null and, that update done, saves the status with phase deleted,
    returning what the save returns; when a deployment is found it
    issues no write and returns success; any other lookup error it
    returns as it is, with no write. *)
Theorem reconcileDeleting_cases (c : Connector) (w : World S) :
  (forall e s1,
     GetDeploymentByConnectorId sv (Connector_ID c) (store w) = (inl e, s1) ->
     Is404 e = true ->
     exists uerr s2,
       UpdateNamespaceId sv (Connector_ID c) None s1 = (uerr, s2)
       /\ match uerr with
          | Some ue =>
              reconcileDeleting sv c w =
                (Returned (Some (Wrapf ue "failed to update namespace_id for connector %s"
                                   [ArgString (Connector_ID c)])),
                 {| store := s2; manager := manager w; tx := tx w;
                    journal := journal w ++ [CallGetDeploymentByConnectorId (Connector_ID c);
                                             CallUpdateNamespaceId (Connector_ID c) None] |})
          | None =>
              let status := setStatusPhase ConnectorStatusPhaseDeleted (Connector_Status c) in
              exists serr s3,
                SaveStatus sv status s2 = (serr, s3)
                /\ reconcileDeleting sv c w =
                   (Returned (asError serr),
                    {| store := s3; manager := manager w; tx := tx w;
                       journal := journal w ++ [CallGetDeploymentByConnectorId (Connector_ID c);
                                                CallUpdateNamespaceId (Connector_ID c) None;
                                                CallSaveStatus status] |})
          end)
  /\ (forall d s1,
        GetDeploymentByConnectorId sv (Connector_ID c) (store w) = (inr d, s1) ->
        reconcileDeleting sv c w =
          (Returned None,
           {| store := s1; manager := manager w; tx := tx w;
              journal := journal w ++ [CallGetDeploymentByConnectorId (Connector_ID c)] |}))
  /\ (forall e s1,
        GetDeploymentByConnectorId sv (Connector_ID c) (store w) = (inl e, s1) ->
        Is404 e = false ->
        reconcileDeleting sv c w =
          (Returned (Some (OfServiceError e)),
           {| store := s1; manager := manager w; tx := tx w;
              journal := journal w ++ [CallGetDeploymentByConnectorId (Connector_ID c)] |})).
Proof.
  split; [| split].
  - intros e s1 Hget H404.
    destruct (UpdateNamespaceId sv (Connector_ID c) None s1) as [uerr s2] eqn:Hupd.
    exists uerr, s2. split; [reflexivity |].
    unfold reconcileDeleting; unfold_engine; simpl. rewrite Hget. simpl.
    rewrite H404. simpl. rewrite Hupd. simpl.
    destruct uerr as [ue|]; simpl.
    + unfold withStore, record. simpl. now rewrite <- app_assoc.
    + destruct (SaveStatus sv _ s2) as [serr s3] eqn:Hsave.
      exists serr, s3. split; [reflexivity |].
      destruct serr; simpl; unfold withStore, record; simpl; now rewrite <- !app_assoc.
  - intros d s1 Hget.
    unfold reconcileDeleting; unfold_engine; simpl. now rewrite Hget.
  - intros e s1 Hget H404.
    unfold reconcileDeleting; unfold_engine; simpl. rewrite Hget. simpl. now rewrite H404.
Qed.

(** C7: for a row of the assigning phase for which
    [FindAvailableNamespace] finds no namespace, the reconciler returns
    success having issued that lookup and nothing else: no status save,
    no deployment; the store is as the lookup left it. *)
Theorem reconcileAssigning_no_namespace (c : Connector) (w : World S) (s1 : S) :
  FindAvailableNamespace sv (Connector_Owner c) (Connector_OrganisationId c)
    (Connector_NamespaceId c) (store w) = (inr None, s1) ->
  reconcileAssigning sv c w =
    (Returned None,
     {| store := s1; manager := manager w; tx := tx w;
        journal := journal w ++ [CallFindAvailableNamespace (Connector_Owner c)
                                   (Connector_OrganisationId c) (Connector_NamespaceId c)] |}).
Proof.
  intros Hfind. unfold reconcileAssigning; unfold_engine; simpl. now rewrite Hfind.
Qed.

End Reconcilers.

Lemma reconcileConnectorUpdate_single_save_witness :
  (exists r w',
     reconcileConnectorUpdate mem connector8 worldOneUpdate = (Returned r, w')
     /\ journal w' = [CallGetDeploymentByConnectorId "c8";
                      CallSaveDeployment (mkDeployment "d8" "c8" 8);
                      CallAddPostCommitAction])
  /\ (exists r w',
        reconcileConnectorUpdate mem connector9 worldUpToDate = (Returned r, w')
        /\ store w' = store worldUpToDate
        /\ journal w' = [CallGetDeploymentByConnectorId "c9"; CallAddPostCommitAction]).
Proof.
  split.
  - destruct (proj1 (reconcileConnectorUpdate_single_save mem connector8 worldOneUpdate
                       (mkDeployment "d8" "c8" 7) (store worldOneUpdate) eq_refl))
      as (serr & s2 & r & w' & _ & Hrun & _ & Hj & _).
    + simpl. lia.
    + exists r, w'. split; assumption.
  - destruct (proj2 (reconcileConnectorUpdate_single_save mem connector9 worldUpToDate
                       (mkDeployment "d9" "c9" 9) (store worldUpToDate) eq_refl))
      as (r & w' & Hrun & Hs & Hj & _).
    + reflexivity.
    + exists r, w'. repeat split; assumption.
Defined.

Lemma reconcileDeleting_cases_witness :
  let '(r, w) := reconcileDeleting mem connectorDeleting worldDeleting in
  r = Returned None
  /\ mem_connectors (store w) =
     [{| Connector_ID := "c3";
         Connector_Owner := "owner";
         Connector_OrganisationId := "org";
         Connector_NamespaceId := None;
         Connector_ConnectorTypeId := "t";
         Connector_Channel := "stable";
         Connector_DesiredState := ConnectorDeleted;
         Connector_Version := 3;
         Connector_Status :=
           {| Status_ID := "c3";
              Status_NamespaceID := Some "ns-1";
              Status_Phase := ConnectorStatusPhaseDeleted |} |}]
  /\ journal w = [CallGetDeploymentByConnectorId "c3";
                  CallUpdateNamespaceId "c3" None;
                  CallSaveStatus (setStatusPhase ConnectorStatusPhaseDeleted
                                    (Connector_Status connectorDeleting))].
Proof.
  destruct (proj1 (reconcileDeleting_cases mem connectorDeleting worldDeleting)
              (memNotFound "connector deployment not found") (store worldDeleting)
              eq_refl eq_refl)
    as (uerr & s2 & Hupd & Hrun).
  vm_compute in Hupd. injection Hupd as <- <-.
  destruct Hrun as (serr & s3 & Hsave & Hrun).
  vm_compute in Hsave. injection Hsave as <- <-.
  rewrite Hrun. repeat split.
Defined.

(** With the namespace update failing, the 404 case returns the wrapped
    error and saves no status. *)
Example reconcileDeleting_update_fails :
  let '(r, w) := reconcileDeleting mem connectorDeleting worldDeletingUpdateFails in
  r = Returned (Some (Wrapf (ExternalError "update failed")
                        "failed to update namespace_id for connector %s" [ArgString "c3"]))
  /\ mem_connectors (store w) = [connectorDeleting]
  /\ journal w = [CallGetDeploymentByConnectorId "c3"; CallUpdateNamespaceId "c3" None].
Proof. vm_compute. auto. Qed.

Lemma reconcileAssigning_no_namespace_witness :
  reconcileAssigning mem connectorAssigning worldNoNamespace =
    (Returned None,
     {| store := store worldNoNamespace;
        manager := manager worldNoNamespace;
        tx := None;
        journal := [CallFindAvailableNamespace "owner" "org" (Some "ns-1")] |})
  /\ selectedRows mem assigningQuery (store worldNoNamespace) = [connectorAssigning].
Proof.
  split; [| reflexivity].
  apply (reconcileAssigning_no_namespace mem connectorAssigning worldNoNamespace
           (store worldNoNamespace)).
  reflexivity.
Defined.

(** ** Scenarios of the specification, run on the in-memory store *)

(** A version bump: from mark 7 with the deployment at 7 and the
    connector at 8, one tick saves the deployment at 8 and moves the
    mark to 8; the next tick selects nothing and writes nothing. *)
Example version_bump_then_idle :
  let w0 := mkWorld (mkStore [connector8] [mkDeployment "d8" "c8" 7] [] [])
              7 true (Some context1) in
  let '(r1, w1) := Reconcile mem w0 in
  let '(r2, w2) := Reconcile mem w1 in
  r1 = Returned [] /\ r2 = Returned []
  /\ mem_deployments (store w1) = [mkDeployment "d8" "c8" 8]
  /\ lastVersion (manager w1) = 8
  /\ store w2 = store w1
  /\ lastVersion (manager w2) = 8
  /\ List.filter isBegin (skipn (length (journal w1)) (journal w2)) = [].
Proof. vm_compute. repeat split. Qed.

(** A catalog entry without [connector_revision]: the first tick fails
    in the catalog pass, runs no phase and leaves the flag unset. *)
Example catalog_misconfiguration :
  let '(r, w) := Reconcile memBadCatalog worldStartup in
  (exists e, r = Returned [OfServiceError e])
  /\ startupReconcileDone (manager w) = false
  /\ List.filter isForEach (journal w) = [].
Proof. vm_compute. eauto. Qed.

(** * Further properties of the connector manager *)

Section ManagerState.

Context {S : Type} (sv : Collaborators S).

Lemma advances_refl (k : ConnectorManager) : advances k k.
Proof. unfold advances. repeat split; auto. lia. Qed.

Lemma advances_trans (k1 k2 k3 : ConnectorManager) :
  advances k1 k2 -> advances k2 k3 -> advances k1 k3.
Proof.
  intros (H1 & H2 & H3) (H4 & H5 & H6). unfold advances.
  repeat split; [lia | auto | auto].
Qed.

(** What a row transaction does to the manager: in the update phase it
    assigns the row's version to [lastVersion] when it returns nil and
    leaves the manager alone otherwise; in the other phases it leaves
    the manager alone. *)
Lemma rowTransaction_manager (p : ReconcilePhase) (c : Connector) (w : World S) :
  exists r w',
    rowTransaction sv (phaseFunc sv p) c w = (Returned r, w')
    /\ manager w' =
       match p, r with
       | PhaseUpdated, None => setLastVersion (Connector_Version c) (manager w)
       | _, _ => manager w
       end.
Proof.
  destruct p; simpl;
    unfold reconcileAssigning, reconcileUnassigned, reconcileDeleting, reconcileDeleted,
      reconcileConnectorUpdate;
    unfold_engine; simpl; repeat step;
    eexists _, _; (split; [reflexivity |]); reflexivity.
Qed.

(** X6: the row transaction of the update phase moves [lastVersion]
    exactly when it returns nil: then the mark is the row's version;
    when it returns an error (begin failure, reconciler error, resolve
    failure) the manager is as before. *)
Theorem update_row_advances_iff_nil (c : Connector) (w : World S) :
  manager (snd (rowTransaction sv (reconcileConnectorUpdate sv) c w)) =
    match fst (rowTransaction sv (reconcileConnectorUpdate sv) c w) with
    | Returned None => setLastVersion (Connector_Version c) (manager w)
    | _ => manager w
    end.
Proof.
  destruct (rowTransaction_manager PhaseUpdated c w) as (r & w' & Hrun & Hm).
  simpl in Hrun. rewrite Hrun. simpl. rewrite Hm. now destruct r.
Qed.

(** X7: the row transactions of the assigning, unassigned, deleting and
    deleted phases never change the manager: not the version mark, not
    the startup flag, not the context. *)
Theorem other_phases_leave_manager (p : ReconcilePhase) (c : Connector) (w : World S) :
  p <> PhaseUpdated ->
  manager (snd (rowTransaction sv (phaseFunc sv p) c w)) = manager w.
Proof.
  intros Hp.
  destruct (rowTransaction_manager p c w) as (r & w' & Hrun & Hm).
  rewrite Hrun. simpl. rewrite Hm. destruct p; try reflexivity. now destruct Hp.
Qed.

Lemma forEachRow_manager (p : ReconcilePhase) (rows : list Connector) (w : World S) :
  exists w',
    forEachRow (rowTransaction sv (phaseFunc sv p)) rows w = (Returned tt, w')
    /\ (manager w' = manager w
        \/ (p = PhaseUpdated
            /\ exists x, In x rows
                 /\ manager w' = setLastVersion (Connector_Version x) (manager w))).
Proof.
  revert w. induction rows as [| c rows IH]; intros w.
  - exists w. simpl. auto.
  - destruct (rowTransaction_manager p c w) as (r & w1 & Hrow & Hm).
    destruct (IH w1) as (w2 & Hrest & Hm2).
    exists w2. simpl. unfold bind. rewrite Hrow. split; [assumption |].
    destruct Hm2 as [Hsame | (Hp & x & Hx & Hv)].
    + rewrite Hsame, Hm. destruct p, r; auto.
      right. split; [reflexivity |]. exists c. simpl. auto.
    + right. split; [assumption |]. exists x. split; [simpl; auto |].
      rewrite Hv, Hm. now destruct p, r.
Qed.

(** One phase moves the manager forward only. *)
Lemma runPhase_advances (errs : list GoError) (p : ReconcilePhase) (w : World S) :
  exists r w' evs,
    doReconcile sv errs (phaseName p) (phaseFunc sv p) (phaseQuery p (manager w)) w
      = (Returned r, w')
    /\ advances (manager w) (manager w')
    /\ journal w' = (journal w ++ CallForEach (phaseQuery p (manager w)) :: evs)%list
    /\ Forall (fun ev => isRowCall ev = true) evs.
Proof.
  destruct (doReconcile_journal sv errs p (phaseQuery p (manager w)) w)
    as (w' & evs & Hrun & Hrows & Hj & Hevs).
  eexists _, w', evs. split; [exact Hrun |]. split; [| auto].
  destruct (forEachRow_manager p (selectedRows sv (phaseQuery p (manager w)) (store w))
              (record (CallForEach (phaseQuery p (manager w))) w)) as (w2 & Hrows2 & Hm).
  rewrite Hrows in Hrows2. injection Hrows2 as <-.
  destruct Hm as [-> | (-> & x & Hx & ->)]; [apply advances_refl |].
  simpl in Hx. apply selected_by_update in Hx.
  unfold advances. simpl. repeat split; auto. lia.
Qed.

Lemma reconcilePhases_advances (errs : list GoError) (w : World S) :
  exists r w' evs,
    reconcilePhases sv errs w = (Returned r, w')
    /\ advances (manager w) (manager w')
    /\ journal w' = (journal w ++ evs)%list
    /\ Forall (fun ev => isForEach ev = true \/ isRowCall ev = true) evs.
Proof.
  destruct (runPhase_advances errs PhaseAssigning w) as (r1 & w1 & evs1 & H1 & Ha1 & Hj1 & He1).
  destruct (runPhase_advances r1 PhaseUnassigned w1) as (r2 & w2 & evs2 & H2 & Ha2 & Hj2 & He2).
  destruct (runPhase_advances r2 PhaseDeleting w2) as (r3 & w3 & evs3 & H3 & Ha3 & Hj3 & He3).
  destruct (runPhase_advances r3 PhaseDeleted w3) as (r4 & w4 & evs4 & H4 & Ha4 & Hj4 & He4).
  destruct (runPhase_advances r4 PhaseUpdated w4) as (r5 & w5 & evs5 & H5 & Ha5 & Hj5 & He5).
  exists r5, w5,
    (CallForEach (phaseQuery PhaseAssigning (manager w)) :: evs1
     ++ CallForEach (phaseQuery PhaseUnassigned (manager w1)) :: evs2
     ++ CallForEach (phaseQuery PhaseDeleting (manager w2)) :: evs3
     ++ CallForEach (phaseQuery PhaseDeleted (manager w3)) :: evs4
     ++ CallForEach (phaseQuery PhaseUpdated (manager w4)) :: evs5)%list.
  split.
  { unfold reconcilePhases, bind, getManager, ret. simpl in *.
    rewrite H1, H2, H3, H4, H5. reflexivity. }
  split.
  { eauto using advances_trans. }
  split.
  { rewrite Hj5, Hj4, Hj3, Hj2, Hj1.
    repeat (rewrite <- app_assoc; simpl). reflexivity. }
  assert (Hrow : forall evs, Forall (fun ev => isRowCall ev = true) evs ->
                   Forall (fun ev => isForEach ev = true \/ isRowCall ev = true) evs).
  { intros evs H. eapply Forall_impl; [exact H |]. simpl. auto. }
  repeat (first [ apply Hrow; assumption
                | apply List.Forall_cons; [left; reflexivity |]
                | apply Forall_app; split ]).
Qed.

End ManagerState.

(** ** What a tick does to the manager *)

Section TickInvariants.

Context {S : Type} (sv : Collaborators S).

Ltac leaf :=
  unfold advances; simpl; rewrite ?app_nil_r, <- ?app_assoc; simpl;
  repeat split; intros; try congruence; try lia; eauto;
  repeat (constructor; auto).

(** Before the phases: [Reconcile] either returns from the world [w0]
    or goes on to the phases from it; up to there it has issued catalog
    calls and at most the context creation, none of the former with the
    startup flag set, none of the latter with a context at hand. *)
Lemma Reconcile_prologue (w : World S) :
  exists w0 evs,
    journal w0 = (journal w ++ evs)%list
    /\ Forall (fun ev => isCatalogCall ev = true \/ isNewContext ev = true) evs
    /\ (startupReconcileDone (manager w) = true -> Forall (fun ev => isCatalogCall ev = false) evs)
    /\ (ctx (manager w) <> None -> Forall (fun ev => isNewContext ev = false) evs)
    /\ advances (manager w) (manager w0)
    /\ (Reconcile sv w = reconcilePhases sv [] w0 \/ exists r, Reconcile sv w = (r, w0)).
Proof.
  unfold Reconcile, bind, getManager, ret, call, modifyManager. 
  destruct (startupReconcileDone (manager w)) eqn:Hflag; cbn [negb].
  - destruct (ctx (manager w)) eqn:Hctx.
    + exists w, []. leaf.
    + destruct (NewContext sv (store w)) as [[err|c] s]; cbn.
      * exists (withStore s (record CallNewContext w)), [CallNewContext]. leaf.
      * exists (withManager (setCtx (Some c) (manager w)) (withStore s (record CallNewContext w))), [CallNewContext]. leaf.
  - destruct (DeleteUnusedAndNotInCatalog sv (store w)) as [[e|] s1]; cbn.
    + exists (withStore s1 (record CallDeleteUnusedAndNotInCatalog w)), [CallDeleteUnusedAndNotInCatalog].
      leaf.
    + destruct (ForEachConnectorCatalogEntry sv (ReconcileConnectorCatalogEntry sv)
                  (withStore s1 (record CallDeleteUnusedAndNotInCatalog w)))
        as [[[e|]|msg] w2] eqn:Hpass;
        pose proof (ForEachConnectorCatalogEntry_manager sv _ _ _ Hpass) as Hm2;
        destruct (ForEachConnectorCatalogEntry_emits sv _ _ _ Hpass) as (evs2 & Hj2 & Hevs2);
        simpl in Hm2, Hj2;
        assert (Hcat : Forall (fun ev => isCatalogCall ev = true \/ isNewContext ev = true) evs2)
          by (eapply Forall_impl; [exact Hevs2 | simpl; auto]);
        assert (Hnc : Forall (fun ev => isNewContext ev = false) evs2)
          by (eapply Forall_impl; [exact Hevs2 | intros [] Hev; simpl in *; congruence]);
        cbn.
      * exists w2, (CallDeleteUnusedAndNotInCatalog :: evs2).
        unfold advances. rewrite Hj2, Hm2, <- app_assoc. simpl.
        repeat split; intros; try congruence; try lia; eauto;
          constructor; auto.
      * destruct (CleanupDeployments sv (store w2)) as [[e|] s3]; cbn.
        -- exists (withStore s3 (record CallCleanupDeployments w2)),
             (CallDeleteUnusedAndNotInCatalog :: evs2 ++ [CallCleanupDeployments])%list.
           unfold advances. simpl. rewrite Hj2, Hm2, <- !app_assoc. simpl.
           repeat split; intros; try congruence; try lia; eauto;
             constructor; auto; apply Forall_app; split; auto; repeat constructor; auto.
        -- rewrite Hm2. destruct (ctx (manager w)) eqn:Hctx; cbn.
           ++ exists (withManager (setStartupReconcileDone true (manager w2))
                        (withStore s3 (record CallCleanupDeployments w2))),
                (CallDeleteUnusedAndNotInCatalog :: evs2 ++ [CallCleanupDeployments])%list.
              unfold advances. simpl. rewrite Hj2, Hm2, <- !app_assoc. simpl.
              repeat split; intros; try congruence; try lia; eauto;
                constructor; auto; apply Forall_app; split; auto; repeat constructor; auto.
           ++ destruct (NewContext sv s3) as [[err|c] s4]; cbn.
              ** exists (withStore s4 (record CallNewContext
                           (withManager (setStartupReconcileDone true (manager w2))
                              (withStore s3 (record CallCleanupDeployments w2))))),
                   (CallDeleteUnusedAndNotInCatalog :: evs2
                    ++ [CallCleanupDeployments; CallNewContext])%list.
                 unfold advances. simpl. rewrite Hj2, Hm2, <- !app_assoc. simpl.
                 repeat split; intros; try congruence; try lia; eauto;
                   constructor; auto; apply Forall_app; split; auto; repeat constructor; auto.
              ** exists (withManager (setCtx (Some c) (setStartupReconcileDone true (manager w2)))
                           (withStore s4 (record CallNewContext
                              (withManager (setStartupReconcileDone true (manager w2))
                                 (withStore s3 (record CallCleanupDeployments w2)))))),
                   (CallDeleteUnusedAndNotInCatalog :: evs2
                    ++ [CallCleanupDeployments; CallNewContext])%list.
                 unfold advances. simpl. rewrite Hj2, Hm2, <- !app_assoc. simpl.
                 repeat split; intros; try congruence; try lia; eauto;
                   constructor; auto; apply Forall_app; split; auto; repeat constructor; auto.
      * exists w2, (CallDeleteUnusedAndNotInCatalog :: evs2).
        unfold advances. rewrite Hj2, Hm2, <- app_assoc. simpl.
        repeat split; intros; try congruence; try lia; eauto;
          constructor; auto.
Qed.

(** X1: a tick never lowers the version mark: whatever [Reconcile]
    returns (also on an early return or a panic), [lastVersion] after
    it is at least [lastVersion] before it. *)
Theorem Reconcile_lastVersion_never_decreases (w : World S) :
  lastVersion (manager w) <= lastVersion (manager (snd (Reconcile sv w))).
Proof.
  destruct (Reconcile_prologue w) as (w0 & evs & _ & _ & _ & _ & (Hlv & _) & [Hrun | [r Hrun]]).
  - destruct (reconcilePhases_advances sv [] w0) as (r & w' & evs' & Hph & (Hlv' & _) & _).
    rewrite Hrun, Hph. simpl. lia.
  - rewrite Hrun. simpl. exact Hlv.
Qed.

(** X2: once the startup flag is set, a tick leaves it set and issues
    no call of catalog reconciliation. *)
Theorem Reconcile_startup_done_sticky (w : World S) :
  startupReconcileDone (manager w) = true ->
  startupReconcileDone (manager (snd (Reconcile sv w))) = true
  /\ exists evs,
       journal (snd (Reconcile sv w)) = (journal w ++ evs)%list
       /\ Forall (fun ev => isCatalogCall ev = false) evs.
Proof.
  intros Hflag.
  destruct (Reconcile_prologue w)
    as (w0 & evs & Hj & _ & Hcat & _ & (_ & Hdone & _) & [Hrun | [r Hrun]]).
  - destruct (reconcilePhases_advances sv [] w0)
      as (r & w' & evs' & Hph & (_ & Hdone' & _) & Hj' & Hevs').
    rewrite Hrun, Hph. simpl. split; [auto |].
    exists (evs ++ evs')%list. rewrite Hj', Hj, <- app_assoc. split; [reflexivity |].
    apply Forall_app. split; [auto |].
    eapply Forall_impl; [exact Hevs' |].
    intros [] [H | H]; simpl in *; congruence.
  - rewrite Hrun. simpl. split; [auto |]. exists evs. auto.
Qed.

(** X3: once the manager has a context, a tick keeps that context and
    never calls [NewContext] again. *)
Theorem Reconcile_context_kept (w : World S) (c : Context) :
  ctx (manager w) = Some c ->
  ctx (manager (snd (Reconcile sv w))) = Some c
  /\ exists evs,
       journal (snd (Reconcile sv w)) = (journal w ++ evs)%list
       /\ Forall (fun ev => isNewContext ev = false) evs.
Proof.
  intros Hctx.
  destruct (Reconcile_prologue w)
    as (w0 & evs & Hj & _ & _ & Hnew & (_ & _ & Hkeep) & [Hrun | [r Hrun]]).
  - destruct (reconcilePhases_advances sv [] w0)
      as (r & w' & evs' & Hph & (_ & _ & Hkeep') & Hj' & Hevs').
    rewrite Hrun, Hph. simpl. split; [auto |].
    exists (evs ++ evs')%list. rewrite Hj', Hj, <- app_assoc. split; [reflexivity |].
    apply Forall_app. split; [apply Hnew; congruence |].
    eapply Forall_impl; [exact Hevs' |].
    intros [] [H | H]; simpl in *; congruence.
  - rewrite Hrun. simpl. split; [auto |]. exists evs. split; [assumption |].
    apply Hnew. congruence.
Qed.

(** X4: when the three steps of catalog reconciliation succeed, the tick
    ends with the startup flag set, also when it then fails to create
    the context and returns that error without running a phase. *)
Theorem Reconcile_startup_success_sets_flag (w w2 : World S) (s1 s3 : S) :
  startupReconcileDone (manager w) = false ->
  DeleteUnusedAndNotInCatalog sv (store w) = (None, s1) ->
  ForEachConnectorCatalogEntry sv (ReconcileConnectorCatalogEntry sv)
    (withStore s1 (record CallDeleteUnusedAndNotInCatalog w)) = (Returned None, w2) ->
  CleanupDeployments sv (store w2) = (None, s3) ->
  startupReconcileDone (manager (snd (Reconcile sv w))) = true
  /\ (forall err s4,
        ctx (manager w) = None ->
        NewContext sv s3 = (inl err, s4) ->
        fst (Reconcile sv w) = Returned [err]
        /\ List.filter isForEach (journal (snd (Reconcile sv w)))
           = List.filter isForEach (journal w)).
Proof.
  intros Hflag Hdel Hpass Hclean.
  pose proof (ForEachConnectorCatalogEntry_manager sv _ _ _ Hpass) as Hm2.
  destruct (ForEachConnectorCatalogEntry_emits sv _ _ _ Hpass) as (evs2 & Hj2 & Hevs2).
  simpl in Hm2, Hj2.
  assert (Hrun : Reconcile sv w =
            match ctx (manager w) with
            | Some _ =>
                reconcilePhases sv []
                  (withManager (setStartupReconcileDone true (manager w2))
                     (withStore s3 (record CallCleanupDeployments w2)))
            | None =>
                match NewContext sv s3 with
                | (inl err, s4) =>
                    (Returned [err],
                     withStore s4 (record CallNewContext
                       (withManager (setStartupReconcileDone true (manager w2))
                          (withStore s3 (record CallCleanupDeployments w2)))))
                | (inr c, s4) =>
                    reconcilePhases sv []
                      (withManager (setCtx (Some c) (setStartupReconcileDone true (manager w2)))
                         (withStore s4 (record CallNewContext
                            (withManager (setStartupReconcileDone true (manager w2))
                               (withStore s3 (record CallCleanupDeployments w2))))))
                end
            end).
  { unfold Reconcile, bind, getManager, ret, call, modifyManager.
    rewrite Hflag. cbn [negb]. rewrite Hdel. cbn. rewrite Hpass. cbn. rewrite Hclean. cbn.
    rewrite Hm2. destruct (ctx (manager w)); cbn; [reflexivity |].
    destruct (NewContext sv s3) as [[err|c] s4]; reflexivity. }
  split.
  - rewrite Hrun. destruct (ctx (manager w)).
    + destruct (reconcilePhases_advances sv []
                  (withManager (setStartupReconcileDone true (manager w2))
                     (withStore s3 (record CallCleanupDeployments w2))))
        as (r & w' & evs' & Hph & (_ & Hdone & _) & _).
      rewrite Hph. simpl. now apply Hdone.
    + destruct (NewContext sv s3) as [[err|c] s4]; [reflexivity |].
      destruct (reconcilePhases_advances sv []
                  (withManager (setCtx (Some c) (setStartupReconcileDone true (manager w2)))
                     (withStore s4 (record CallNewContext
                        (withManager (setStartupReconcileDone true (manager w2))
                           (withStore s3 (record CallCleanupDeployments w2)))))))
        as (r & w' & evs' & Hph & (_ & Hdone & _) & _).
      rewrite Hph. simpl. now apply Hdone.
  - intros err s4 Hctx Hnew. rewrite Hrun, Hctx, Hnew. simpl. split; [reflexivity |].
    rewrite Hj2. rewrite !List.filter_app. simpl.
    assert (Hnone : List.filter isForEach evs2 = []).
    { clear - Hevs2. induction Hevs2 as [| ev evs Hev _ IH]; [reflexivity |].
      simpl. destruct ev; try discriminate; exact IH. }
    rewrite Hnone. simpl. now rewrite !app_nil_r.
Qed.

End TickInvariants.

Lemma Reconcile_startup_done_sticky_witness :
  startupReconcileDone (manager (snd (Reconcile mem worldTwoUpdates))) = true
  /\ exists evs,
       journal (snd (Reconcile mem worldTwoUpdates)) = (journal worldTwoUpdates ++ evs)%list
       /\ Forall (fun ev => isCatalogCall ev = false) evs.
Proof.
  apply (Reconcile_startup_done_sticky mem worldTwoUpdates). reflexivity.
Defined.

Lemma Reconcile_context_kept_witness :
  ctx (manager (snd (Reconcile mem worldTwoUpdates))) = Some context1
  /\ exists evs,
       journal (snd (Reconcile mem worldTwoUpdates)) = (journal worldTwoUpdates ++ evs)%list
       /\ Forall (fun ev => isNewContext ev = false) evs.
Proof.
  apply (Reconcile_context_kept mem worldTwoUpdates context1). reflexivity.
Defined.

Lemma Reconcile_startup_success_sets_flag_witness :
  startupReconcileDone (manager (snd (Reconcile mem worldStartupNoContext))) = true
  /\ fst (Reconcile mem worldStartupNoContext)
     = Returned [ExternalError "no database connection"].
Proof.
  destruct (Reconcile_startup_success_sets_flag mem worldStartupNoContext
              (snd (ForEachConnectorCatalogEntry mem (ReconcileConnectorCatalogEntry mem)
                      (withStore (store worldStartupNoContext)
                         (record CallDeleteUnusedAndNotInCatalog worldStartupNoContext))))
              (store worldStartupNoContext) (store worldStartupNoContext)
              eq_refl eq_refl eq_refl eq_refl) as [Hflag Hctx].
  split; [exact Hflag |].
  apply (Hctx (ExternalError "no database connection") (store worldStartupNoContext)
           eq_refl eq_refl).
Defined.

Lemma other_phases_leave_manager_witness :
  manager (snd (rowTransaction mem (phaseFunc mem PhaseDeleting) connectorDeleting
                  worldDeleting))
  = manager worldDeleting.
Proof.
  apply (other_phases_leave_manager mem PhaseDeleting connectorDeleting worldDeleting).
  discriminate.
Defined.

(** ** Catalog failures and the startup check worker *)

Section StartupWorker.

Context {S : Type} (sv : Collaborators S).
Context (CatalogEntriesReconciled : S -> (GoError + bool) * S).





End StartupWorker.



(** ** More on the reconcilers *)

Section MoreReconcilers.

Context {S : Type} (sv : Collaborators S).

(** X5: a row transaction of any phase never both commits and rolls
    back; when it returns nil it has committed and not rolled back;
    when it has rolled back it returns an error. *)
Theorem rowTransaction_commit_xor_rollback (p : ReconcilePhase) (c : Connector) (w : World S) :
  exists evs,
    journal (snd (rowTransaction sv (phaseFunc sv p) c w)) = (journal w ++ evs)%list
    /\ (fst (rowTransaction sv (phaseFunc sv p) c w) = Returned None ->
        existsb isCommit evs = true /\ existsb isRollback evs = false)
    /\ (existsb isRollback evs = true ->
        exists e, fst (rowTransaction sv (phaseFunc sv p) c w) = Returned (Some e))
    /\ existsb isCommit evs && existsb isRollback evs = false.
Proof.
  destruct p; simpl;
    unfold reconcileAssigning, reconcileUnassigned, reconcileDeleting, reconcileDeleted,
      reconcileConnectorUpdate;
    unfold_engine; simpl; repeat step;
    eexists; (split; [rewrite <- ?app_assoc; simpl; reflexivity |]); simpl;
    repeat split; intros; try discriminate; eauto.
Qed.

(** X8: [reconcileAssigning] saves a status and a deployment only for
    the namespace [FindAvailableNamespace] returned.  The status it
    saves is the connector's, with that namespace's id and phase
    assigned.  A deployment is saved only after that status was saved
    without error; it has the id [NewID] gave, is for this connector and
    carries that namespace's cluster id and id, the connector's version
    and the id of the latest shard metadata of the connector's type and
    channel.  At most one status and one deployment are saved. *)
Theorem reconcileAssigning_deployment_after_status (c : Connector) (w : World S) :
  exists r w' evs,
    reconcileAssigning sv c w = (Returned r, w')
    /\ journal w' = (journal w ++ evs)%list
    /\ (forall st, In (CallSaveStatus st) evs ->
          exists namespace s1,
            FindAvailableNamespace sv (Connector_Owner c) (Connector_OrganisationId c)
              (Connector_NamespaceId c) (store w) = (inr (Some namespace), s1)
            /\ st = {| Status_ID := Connector_ID c;
                       Status_NamespaceID := Some (Namespace_ID namespace);
                       Status_Phase := ConnectorStatusPhaseAssigned |})
    /\ (forall d, In (CallSaveDeployment d) evs ->
          exists namespace s1 shardMetadata s2 s3 newID s4,
            let status := {| Status_ID := Connector_ID c;
                             Status_NamespaceID := Some (Namespace_ID namespace);
                             Status_Phase := ConnectorStatusPhaseAssigned |} in
            FindAvailableNamespace sv (Connector_Owner c) (Connector_OrganisationId c)
              (Connector_NamespaceId c) (store w) = (inr (Some namespace), s1)
            /\ GetLatestConnectorShardMetadata sv (Connector_ConnectorTypeId c)
                 (Connector_Channel c) s1 = (inr shardMetadata, s2)
            /\ SaveStatus sv status s2 = (None, s3)
            /\ NewID sv s3 = (newID, s4)
            /\ d = {| Deployment_ID := newID;
                      Deployment_ConnectorID := Connector_ID c;
                      Deployment_ClusterID := Namespace_ClusterId namespace;
                      Deployment_NamespaceID := Namespace_ID namespace;
                      Deployment_ConnectorVersion := Connector_Version c;
                      Deployment_ConnectorShardMetadataID := ShardMetadata_ID shardMetadata |}
            /\ evs = [CallFindAvailableNamespace (Connector_Owner c)
                        (Connector_OrganisationId c) (Connector_NamespaceId c);
                      CallGetLatestConnectorShardMetadata (Connector_ConnectorTypeId c)
                        (Connector_Channel c);
                      CallSaveStatus status; CallNewID; CallSaveDeployment d]
            /\ store w' = snd (SaveDeployment sv d s4))
    /\ (length (List.filter isSaveStatus evs) <= 1)%nat
    /\ (length (List.filter isSaveDeployment evs) <= 1)%nat.
Proof.
  unfold reconcileAssigning; unfold_engine; simpl.
  destruct (FindAvailableNamespace sv (Connector_Owner c) (Connector_OrganisationId c)
              (Connector_NamespaceId c) (store w)) as [[err|[namespace|]] s1] eqn:Hfind;
    simpl.
  1, 3: eexists _, _, _; (split; [reflexivity |]); simpl;
    (split; [reflexivity |]);
    (split; [intros st [H | []]; discriminate H |]);
    (split; [intros d [H | []]; discriminate H |]); simpl; lia.
  destruct (GetLatestConnectorShardMetadata sv (Connector_ConnectorTypeId c)
              (Connector_Channel c) s1) as [[err|shardMetadata] s2] eqn:Hlatest; simpl.
  { eexists _, _, _; (split; [reflexivity |]); simpl.
    split; [rewrite <- app_assoc; reflexivity |].
    split; [intros st [H | [H | []]]; discriminate H |].
    split; [intros d [H | [H | []]]; discriminate H |]. simpl. lia. }
  destruct (SaveStatus sv _ s2) as [[err|] s3] eqn:Hstatus; simpl.
  { eexists _, _, _; (split; [reflexivity |]); simpl.
    split; [rewrite <- !app_assoc; reflexivity |].
    split.
    - intros st [H | [H | [H | []]]]; try discriminate H.
      injection H as <-. eauto.
    - split; [intros d [H | [H | [H | []]]]; discriminate H |]. simpl. lia. }
  destruct (NewID sv s3) as [newID s4] eqn:Hid; simpl.
  destruct (SaveDeployment sv _ s4) as [[err|] s5] eqn:Hsave; simpl;
    (eexists _, _, _; (split; [reflexivity |]); simpl;
     split; [rewrite <- !app_assoc; reflexivity |];
     split;
     [ intros st [H | [H | [H | [H | [H | []]]]]]; try discriminate H;
       injection H as <-; eauto
     | split;
       [ intros d [H | [H | [H | [H | [H | []]]]]]; try discriminate H;
         injection H as <-;
         exists namespace, s1, shardMetadata, s2, s3, newID, s4; simpl;
         rewrite Hsave; repeat split; assumption
       | simpl; lia ] ]).
Qed.

(** X13: [reconcileUnassigned] first sets the connector's
    [namespace_id] to null; when that fails it returns the wrapped error
    and saves no status; otherwise it saves the connector's status with
    phase assigning and no namespace, and returns nil or the wrapped
    error of that save. *)
Theorem reconcileUnassigned_cases (c : Connector) (w : World S) :
  let status := {| Status_ID := Status_ID (Connector_Status c);
                   Status_NamespaceID := None;
                   Status_Phase := ConnectorStatusPhaseAssigning |} in
  match UpdateNamespaceId sv (Connector_ID c) None (store w) with
  | (Some ue, s1) =>
      reconcileUnassigned sv c w =
        (Returned (Some (Wrapf ue "failed to update namespace_id for connector %s"
                           [ArgString (Connector_ID c)])),
         {| store := s1; manager := manager w; tx := tx w;
            journal := journal w ++ [CallUpdateNamespaceId (Connector_ID c) None] |})
  | (None, s1) =>
      match SaveStatus sv status s1 with
      | (serr, s2) =>
          reconcileUnassigned sv c w =
            (Returned
               (match serr with
                | Some se =>
                    Some (Wrapf (OfServiceError se)
                            "failed to update phase to assigning for connector %s"
                            [ArgString (Connector_ID c)])
                | None => None
                end),
             {| store := s2; manager := manager w; tx := tx w;
                journal := journal w ++ [CallUpdateNamespaceId (Connector_ID c) None;
                                         CallSaveStatus status] |})
      end
  end.
Proof.
  intros status. unfold reconcileUnassigned; unfold_engine; simpl.
  destruct (UpdateNamespaceId sv (Connector_ID c) None (store w)) as [[ue|] s1]; simpl.
  - reflexivity.
  - change (setStatusNamespaceID None
              (setStatusPhase ConnectorStatusPhaseAssigning (Connector_Status c)))
      with status.
    destruct (SaveStatus sv status s1) as [[se|] s2]; simpl;
      unfold withStore, record; simpl; now rewrite <- app_assoc.
Qed.

(** X10: [ReconcileConnectorCatalogEntry] stores a shard metadata record
    only for an entry whose [connector_revision] is a float64 and whose
    shard metadata can be marshalled; the record carries the entry's
    type and channel and the revision converted to int64, and the
    result is what the store answers.  For any other non-nil revision,
    a missing one or a marshalling failure it returns a general error
    and leaves the world as it was. *)
Theorem ReconcileConnectorCatalogEntry_cases (id channel : string)
  (cfg : ConnectorChannelConfig) (w : World S) :
  match ChannelConfig_ShardMetadata cfg !! "connector_revision",
        json_Marshal sv (ChannelConfig_ShardMetadata cfg) with
  | Some VNil, _ =>
      exists msg, ReconcileConnectorCatalogEntry sv id channel cfg w = (Panicked msg, w)
  | Some (VFloat64 f), inr bytes =>
      let metadata :=
        {| ShardMetadata_ID := 0;
           ShardMetadata_ConnectorTypeId := id;
           ShardMetadata_Channel := channel;
           ShardMetadata_Revision := int64_of_float64 f;
           ShardMetadata_ShardMetadata := bytes |} in
      ReconcileConnectorCatalogEntry sv id channel cfg w =
        (Returned (fst (PutConnectorShardMetadata sv metadata (store w))),
         {| store := snd (PutConnectorShardMetadata sv metadata (store w));
            manager := manager w; tx := tx w;
            journal := journal w ++ [CallPutConnectorShardMetadata metadata] |})
  | _, _ =>
      exists e,
        ReconcileConnectorCatalogEntry sv id channel cfg w = (Returned (Some e), w)
        /\ Code e = ErrorGeneral
  end.
Proof.
  unfold ReconcileConnectorCatalogEntry, GetShardMetadataRevision; unfold_engine.
  destruct (ChannelConfig_ShardMetadata cfg !! "connector_revision") as [[| | | f | | |]|];
    simpl; eauto;
    destruct (json_Marshal sv (ChannelConfig_ShardMetadata cfg)) as [e|bytes]; simpl; eauto.
  destruct (PutConnectorShardMetadata sv _ (store w)) as [[e|] s]; reflexivity.
Qed.

(** X11: [reconcileConnectorUpdate] returns nil exactly when a
    transaction is open, the deployment was fetched, and the deployment
    either already had the connector's version or was saved with it
    without error. *)
Theorem reconcileConnectorUpdate_nil_iff (c : Connector) (w : World S) :
  fst (reconcileConnectorUpdate sv c w) = Returned None
  <-> (tx w <> None
       /\ exists d s1,
            GetDeploymentByConnectorId sv (Connector_ID c) (store w) = (inr d, s1)
            /\ (Deployment_ConnectorVersion d = Connector_Version c
                \/ (Deployment_ConnectorVersion d <> Connector_Version c
                    /\ fst (SaveDeployment sv (setConnectorVersion (Connector_Version c) d) s1)
                       = None))).
Proof.
  unfold reconcileConnectorUpdate; unfold_engine; simpl.
  destruct (GetDeploymentByConnectorId sv (Connector_ID c) (store w)) as [[e|d] s1]; simpl.
  - destruct (tx w); simpl; split; try discriminate;
      intros (Ha & d & s & Hd & Hr); discriminate.
  - destruct (decide (Deployment_ConnectorVersion d = Connector_Version c)) as [Heq | Hne].
    + rewrite bool_decide_eq_false_2 by (intros H; now apply H). simpl.
      destruct (tx w); simpl; split; try discriminate; try reflexivity.
      all: try (intros [Ha Hr]; now destruct Ha).
      intros Hnil. split; [discriminate |]. eauto.
    + rewrite (bool_decide_eq_true_2 _ Hne). simpl.
      destruct (SaveDeployment sv (setConnectorVersion (Connector_Version c) d) s1)
        as [[se|] s2] eqn:Hsave; simpl;
        destruct (tx w); simpl; split; try discriminate; try reflexivity.
      all: try (intros [Ha Hr]; now destruct Ha).
      all: try (intros (Ha & d' & s' & Hd & [Heq | [Hn Hs]]); injection Hd as <- <-;
                [contradiction | rewrite Hsave in Hs; discriminate]).
      intros Hnil. split; [discriminate |]. exists d, s1. split; [reflexivity |].
      right. rewrite Hsave. auto.
Qed.

End MoreReconcilers.

(** X9: the row predicates of the five phases exclude one another: on
    one state of a row and one version mark, a row selected by one
    phase is selected by no other. *)
Theorem phase_predicates_disjoint (p q : ReconcilePhase) (k : ConnectorManager)
  (c : Connector) :
  p <> q ->
  matches (phaseQuery p k) c = true ->
  matches (phaseQuery q k) c = false.
Proof.
  intros Hpq.
  destruct c as [id owner org ns type channel desired version [sid sns phase]].
  unfold matches. simpl.
  destruct p, q; try congruence; clear Hpq; simpl;
    destruct desired, phase; simpl; try discriminate; try reflexivity;
    rewrite ?andb_false_r, ?andb_true_r; try discriminate; try reflexivity.
Qed.

Lemma phase_predicates_disjoint_witness :
  matches (phaseQuery PhaseDeleted (manager worldDeleting)) connectorDeleting = false.
Proof.
  apply (phase_predicates_disjoint PhaseDeleting PhaseDeleted).
  - discriminate.
  - reflexivity.
Defined.

(** Every revision [GetShardMetadataRevision] returns is an int64
    value. *)
Theorem GetShardMetadataRevision_in_int64 (m : gmap string GoValue) (revision : Z)
  (err : option GoError) :
  GetShardMetadataRevision m = Returned (revision, err) ->
  int64_min <= revision <= int64_max.
Proof.
  unfold GetShardMetadataRevision.
  assert (Hzero : int64_min <= 0 <= int64_max) by (unfold int64_min, int64_max; lia).
  destruct (m !! "connector_revision") as [[| | | f | | |]|]; simpl; intros H;
    try discriminate; try (injection H as <- _; exact Hzero).
  injection H as <- _. unfold int64_of_float64.
  destruct (float64_trunc f) as [z|]; [| unfold int64_min, int64_max; lia].
  destruct (int64_min <=? z) eqn:Hlo; destruct (z <=? int64_max) eqn:Hhi; simpl;
    try (unfold int64_min, int64_max; lia).
  apply Z.leb_le in Hlo, Hhi. lia.
Qed.

Lemma GetShardMetadataRevision_in_int64_witness :
  int64_min <= 1 <= int64_max.
Proof.
  apply (GetShardMetadataRevision_in_int64 fractionalRevision 1 None). reflexivity.
Defined.

(** * Properties of the Kafka service *)

Section KafkaProperties.

Context {S : Type} (ks : KafkaCollaborators S).

(** X14: [UpdateStatus] returns false exactly when the Kafka was found
    and either it is in deprovision status and the new status is not
    deleting, or it already has the new status; it then returns an
    error and has not written the status: the store is as the lookup
    left it. *)
Theorem UpdateStatus_not_tried_iff (id status : string) (s : S) :
  (fst (fst (UpdateStatus ks id status s)) = false
   <-> exists kafka s1,
         GetById ks id s = (inr kafka, s1)
         /\ ((Kafka_Status kafka = KafkaRequestStatusDeprovision ks
              /\ status <> KafkaRequestStatusDeleting ks)
             \/ Kafka_Status kafka = status))
  /\ (fst (fst (UpdateStatus ks id status s)) = false ->
      snd (fst (UpdateStatus ks id status s)) <> None
      /\ snd (UpdateStatus ks id status s) = snd (GetById ks id s)).
Proof.
  unfold UpdateStatus.
  destruct (GetById ks id s) as [[err|kafka] s1]; simpl.
  - split; [split; [discriminate |] | discriminate].
    intros (kafka & s2 & H & _). discriminate.
  - destruct (String.eqb_spec (Kafka_Status kafka) (KafkaRequestStatusDeprovision ks))
      as [Hdep | Hdep];
      destruct (String.eqb_spec status (KafkaRequestStatusDeleting ks)) as [Hdel | Hdel];
      destruct (String.eqb_spec (Kafka_Status kafka) status) as [Hsame | Hsame]; simpl;
      first
        [ (* the update is not tried *)
          split; [split; [intros _; exists kafka, s1; split; [reflexivity | tauto]
                         | reflexivity]
                 | intros _; split; [discriminate | reflexivity]]
        | (* the update is tried *)
          destruct (updateStatusColumn ks id status s1) as [[e|] s2]; simpl;
          (split; [split; [discriminate |] | discriminate]);
          intros (k' & s' & Hk & Hc); injection Hk as <- <-;
          exfalso; destruct Hc as [[Ha Hb] | Ha]; congruence ].
Qed.

(** X15: a Kafka in deprovision status can only be moved to deleting:
    when [UpdateStatus] has tried the update of a Kafka it found in
    deprovision status, the new status is deleting. *)
Theorem UpdateStatus_from_deprovision (id status : string) (s s1 : S) (kafka : KafkaRequest) :
  GetById ks id s = (inr kafka, s1) ->
  Kafka_Status kafka = KafkaRequestStatusDeprovision ks ->
  fst (fst (UpdateStatus ks id status s)) = true ->
  status = KafkaRequestStatusDeleting ks.
Proof.
  intros Hget Hdep Htried. unfold UpdateStatus in Htried. rewrite Hget in Htried.
  rewrite Hdep, String.eqb_refl in Htried. simpl in Htried.
  destruct (String.eqb status (KafkaRequestStatusDeleting ks)) eqn:Hdel.
  - now apply String.eqb_eq.
  - discriminate.
Qed.

(** The keys of the counters map are the statuses of the rows. *)
Lemma countersMapOf_lookup (results : list KafkaStatusCount) (st : string) :
  is_Some (countersMapOf results !! st) <-> In st (List.map StatusCount_Status results).
Proof.
  unfold countersMapOf.
  assert (Hgen : forall m : gmap string Z,
            is_Some (foldl (fun countersMap r =>
                              <[StatusCount_Status r := StatusCount_Count r]> countersMap)
                       m results !! st)
            <-> is_Some (m !! st) \/ In st (List.map StatusCount_Status results)).
  { induction results as [| r results IH]; intros m; simpl.
    - tauto.
    - rewrite IH. rewrite lookup_insert_is_Some. 
      split; intros [H | H]; auto.
      + destruct H as [H | [_ H]]; auto.
      + destruct (decide (StatusCount_Status r = st)); auto.
      + destruct H as [H | H]; auto. }
  rewrite Hgen. rewrite lookup_empty. split; [intros [[x Hx] | H]; [discriminate | auto] | auto].
Qed.

Lemma appendMissing_spec (countersMap : gmap string Z) (status : list string)
  (results : list KafkaStatusCount) :
  exists added,
    appendMissing countersMap status results = (results ++ added)%list
    /\ List.map StatusCount_Status added
       = List.filter (fun st => match countersMap !! st with Some _ => false | None => true end)
           status
    /\ Forall (fun r => StatusCount_Count r = 0) added.
Proof.
  revert results. induction status as [| st rest IH]; intros results; simpl.
  - exists []. rewrite app_nil_r. auto.
  - destruct (countersMap !! st) as [n|] eqn:Hst.
    + apply IH.
    + destruct (IH (results ++ [{| StatusCount_Status := st; StatusCount_Count := 0 |}])%list)
        as (added & Heq & Hmap & Hzero).
      exists ({| StatusCount_Status := st; StatusCount_Count := 0 |} :: added).
      rewrite Heq, <- app_assoc. simpl. rewrite Hmap. repeat split. now constructor.
Qed.

Lemma existsb_eqb_In (st : string) (l : list string) :
  existsb (String.eqb st) l = true <-> In st l.
Proof.
  rewrite List.existsb_exists. split.
  - intros (x & Hx & Heq). apply String.eqb_eq in Heq. now subst.
  - intros H. exists st. split; [assumption | apply String.eqb_refl].
Qed.

(** X16: on success [CountByStatus] returns the rows of the query
    followed by one zero count for each requested status, in the order
    requested, that no row of the query has; so every requested status
    has a count in the result. *)
Theorem CountByStatus_fills_missing (status : list string) (s s1 : S)
  (results : list KafkaStatusCount) :
  scanStatusCounts ks status s = (inr results, s1) ->
  exists added,
    CountByStatus ks status s = (inr (results ++ added)%list, s1)
    /\ List.map StatusCount_Status added
       = List.filter (fun st => negb (existsb (String.eqb st)
                                       (List.map StatusCount_Status results))) status
    /\ Forall (fun r => StatusCount_Count r = 0) added
    /\ (forall st, In st status ->
          In st (List.map StatusCount_Status (results ++ added))).
Proof.
  intros Hscan.
  destruct (appendMissing_spec (countersMapOf results) status results)
    as (added & Heq & Hmap & Hzero).
  assert (Hfilter :
    List.filter (fun st => match countersMapOf results !! st with
                           | Some _ => false | None => true end) status
    = List.filter (fun st => negb (existsb (String.eqb st)
                                     (List.map StatusCount_Status results))) status).
  { apply List.filter_ext. intros st.
    pose proof (countersMapOf_lookup results st) as Hkey.
    rewrite <- existsb_eqb_In in Hkey.
    destruct (countersMapOf results !! st) as [n|] eqn:Hst.
    - rewrite (proj1 Hkey); [reflexivity | eauto].
    - destruct (existsb (String.eqb st) (List.map StatusCount_Status results)) eqn:Hex;
        [| reflexivity].
      destruct (proj2 Hkey eq_refl) as [x Hx]. discriminate. }
  exists added. unfold CountByStatus. rewrite Hscan.
  split.
  { destruct status; [| now rewrite Heq].
    destruct added; [now rewrite app_nil_r | discriminate Hmap]. }
  split; [congruence |]. split; [assumption |].
  intros st Hst. rewrite List.map_app, List.in_app_iff.
  destruct (existsb (String.eqb st) (List.map StatusCount_Status results)) eqn:Hex.
  - left. now apply existsb_eqb_In.
  - right. rewrite Hmap, Hfilter. apply List.filter_In. split; [assumption |].
    now rewrite Hex.
Qed.

End KafkaProperties.

Section KafkaCapacity.

Context {S : Type} (ks : KafkaCollaborators S).

Lemma wrap64_in_range (z : Z) : - 2 ^ 63 <= z < 2 ^ 63 -> wrap64 z = z.
Proof.
  intros H. unfold wrap64. rewrite Z.mod_small; lia.
Qed.

(** Without overflow the loop computes the sum. *)
Lemma sumCapacityConsumed_total (kafkas : list KafkaRequest) (count c : Z) :
  Forall (fun k => 0 <= capacityOf ks k < 2 ^ 31) kafkas ->
  0 <= count ->
  count + Z.of_nat (length kafkas) * 2 ^ 31 < 2 ^ 63 ->
  sumCapacityConsumed ks kafkas count = inr c ->
  c = count + totalCapacity ks kafkas /\ 0 <= totalCapacity ks kafkas
  /\ totalCapacity ks kafkas <= Z.of_nat (length kafkas) * 2 ^ 31.
Proof.
  revert count. induction kafkas as [| k kafkas IH]; intros count Hcap Hcount Hbound Hsum.
  - simpl in *. injection Hsum as <-. lia.
  - apply Forall_cons in Hcap as [Hk Hcap]. simpl in Hsum.
    unfold capacityOf in Hk. simpl totalCapacity. unfold capacityOf at 1 2 3.
    destruct (GetKafkaInstanceSize ks (Kafka_InstanceType k) (Kafka_SizeId k)) as [e|sz];
      [discriminate |].
    simpl length in *. rewrite Nat2Z.inj_succ in *.
    rewrite wrap64_in_range in Hsum by lia.
    apply IH in Hsum; [| assumption | lia | lia].
    lia.
Qed.

(** X17: the capacity check counts the requested Kafka with the Kafkas
    already in the region: when it returns no error under a limit, and
    the sum does not overflow, it returns true exactly when what the
    Kafkas of the region consume plus what the request consumes is
    within the limit. *)
Theorem capacityAvailable_iff_total_within_limit (limit : Z) (kafkaRequest : KafkaRequest)
  (kafkas : list KafkaRequest) (s s1 s2 : S) (available : bool) :
  scanKafkas ks (Kafka_Region kafkaRequest) (Kafka_CloudProvider kafkaRequest)
    (Kafka_InstanceType kafkaRequest) s = (inr kafkas, s1) ->
  Forall (fun k => 0 <= capacityOf ks k < 2 ^ 31) (kafkaRequest :: kafkas) ->
  Z.of_nat (length kafkas) < 2 ^ 31 ->
  capacityAvailableForRegionAndInstanceType ks (Some limit) kafkaRequest s
    = ((available, None), s2) ->
  (available = true
   <-> totalCapacity ks kafkas + capacityOf ks kafkaRequest <= limit)
  /\ s2 = s1.
Proof.
  intros Hscan Hcap Hlen Hrun.
  unfold capacityAvailableForRegionAndInstanceType in Hrun. rewrite Hscan in Hrun.
  apply Forall_cons in Hcap as [Hown Hcap].
  destruct (sumCapacityConsumed ks kafkas 0) as [e|count] eqn:Hsum; [discriminate |].
  apply sumCapacityConsumed_total in Hsum as (-> & Hlo & Hhi); [| assumption | lia | lia].
  unfold capacityOf in Hown |- *.
  destruct (GetKafkaInstanceSize ks (Kafka_InstanceType kafkaRequest)
              (Kafka_SizeId kafkaRequest)) as [e|sz]; [discriminate |].
  injection Hrun as <- <-. split; [| reflexivity].
  rewrite wrap64_in_range by lia. simpl. apply Z.leb_le.
Qed.

(** X18: [HasAvailableCapacityInRegion] never answers true together
    with an error, and never answers true for a region whose limit for
    the instance type is zero. *)
Theorem HasAvailableCapacityInRegion_true (kafkaRequest : KafkaRequest) (s : S) :
  fst (fst (HasAvailableCapacityInRegion ks kafkaRequest s)) = true ->
  snd (fst (HasAvailableCapacityInRegion ks kafkaRequest s)) = None
  /\ exists regInstTypeLimit,
       GetInstanceLimit ks (Kafka_Region kafkaRequest) (Kafka_CloudProvider kafkaRequest)
         (Kafka_InstanceType kafkaRequest) = inr regInstTypeLimit
       /\ regInstTypeLimit <> Some 0.
Proof.
  unfold HasAvailableCapacityInRegion.
  destruct (GetInstanceLimit ks _ _ _) as [e|limit]; simpl; [discriminate |].
  assert (Hcap : forall l,
            fst (fst (capacityAvailableForRegionAndInstanceType ks l kafkaRequest s)) = true ->
            snd (fst (capacityAvailableForRegionAndInstanceType ks l kafkaRequest s)) = None).
  { intros l. unfold capacityAvailableForRegionAndInstanceType.
    destruct (scanKafkas ks _ _ _ s) as [[err|kafkas] s1]; simpl; [discriminate |].
    destruct (sumCapacityConsumed ks kafkas 0) as [e|count]; simpl; [discriminate |].
    destruct (GetKafkaInstanceSize ks _ _) as [e|sz]; simpl; [discriminate | reflexivity]. }
  destruct limit as [[| p | p]|]; simpl; try discriminate;
    destruct (IsDataPlaneAutoScalingEnabled ks); simpl; intros H;
    (split; [first [reflexivity | now apply Hcap] | eexists; split; [reflexivity | congruence]]).
Qed.

Lemma SizesRefused_app (criteria : FindClusterCriteria)
  (larger smaller : list KafkaInstanceSize) (s s1 s2 : S) :
  SizesRefused ks criteria larger s s1 ->
  SizesRefused ks criteria smaller s1 s2 ->
  SizesRefused ks criteria (larger ++ smaller) s s2.
Proof.
  induction 1; intros Hrest; simpl; [assumption | |].
  - eapply RefusedNoCapacity; eauto.
  - eapply RefusedNoCluster; eauto.
Qed.

(** What the loop returns from the sizes still to test. *)
Lemma availableSizesFrom_cases (criteria : FindClusterCriteria)
  (larger_first : list KafkaInstanceSize) (s : S) :
  exists out err s',
    availableSizesFrom ks criteria larger_first s = ((out, err), s')
    /\ (err <> None -> out = [])
    /\ (out <> [] ->
        exists larger size smaller s1 s2 cluster,
          larger_first = (larger ++ size :: smaller)%list
          /\ SizesRefused ks criteria larger s s1
          /\ HasAvailableCapacityInRegion ks (sizeRequest criteria size) s1 = ((true, None), s2)
          /\ FindCluster ks (sizeRequest criteria size) s2 = (inr (Some cluster), s')
          /\ out = List.map Size_Id (rev (size :: smaller)))
    /\ (out = [] -> err = None -> SizesRefused ks criteria larger_first s s').
Proof.
  revert s. induction larger_first as [| size smaller IH]; intros s.
  - exists [], None, s. simpl. repeat split; try congruence. constructor.
  - cbn [availableSizesFrom]. fold (sizeRequest criteria size).
    destruct (HasAvailableCapacityInRegion ks (sizeRequest criteria size) s)
      as [[hasCapacity [err|]] s1] eqn:Hcap.
    { exists [], (Some err), s1. repeat split; congruence. }
    destruct hasCapacity.
    + destruct (FindCluster ks (sizeRequest criteria size) s1) as [[err|[cluster|]] s2] eqn:Hfind.
      * exists [], (Some err), s2. repeat split; congruence.
      * eexists _, None, s2. split; [reflexivity |]. split; [congruence |]. split.
        -- intros _. exists [], size, smaller, s, s1, cluster.
           repeat split; try assumption. constructor.
        -- intros Hnil. exfalso. apply (f_equal (@length string)) in Hnil.
           rewrite length_map, length_rev in Hnil. discriminate Hnil.
      * destruct (IH s2) as (out & err & s' & Hrun & Herr & Hout & Hnone).
        exists out, err, s'. split; [assumption |]. split; [assumption |]. split.
        -- intros Hne. destruct (Hout Hne) as (larger & sz & sm & t1 & t2 & cl & -> & Hr & H).
           exists (size :: larger), sz, sm, t1, t2, cl. split; [reflexivity |].
           split; [| assumption]. eapply RefusedNoCluster; eauto.
        -- intros Hnil Hok. eapply RefusedNoCluster; eauto.
    + destruct (IH s1) as (out & err & s' & Hrun & Herr & Hout & Hnone).
      exists out, err, s'. split; [assumption |]. split; [assumption |]. split.
      * intros Hne. destruct (Hout Hne) as (larger & sz & sm & t1 & t2 & cl & -> & Hr & H).
        exists (size :: larger), sz, sm, t1, t2, cl. split; [reflexivity |].
        split; [| assumption]. eapply RefusedNoCapacity; eauto.
      * intros Hnil Hok. eapply RefusedNoCapacity; eauto.
Qed.

(** X19: [GetAvailableSizesInRegion] without criteria, or for an
    instance type that is not configured, returns an error and no size
    and leaves the store alone.  Otherwise it tests the configured sizes
    from the largest down and returns sizes or an error, never both.
    The sizes it returns are the configured ones from the smallest up
    to the first size, coming from the largest, for which the region has
    capacity and a cluster is found, every larger size having been
    refused; it returns no size and no error only when every configured
    size was refused. *)
Theorem GetAvailableSizesInRegion_prefix (criteria : option FindClusterCriteria) (s : S) :
  match criteria with
  | None =>
      GetAvailableSizesInRegion ks criteria s =
        (([], Some (GeneralError
                      "unable to get available sizes in region: criteria was not specified" [])),
         s)
  | Some c =>
      match GetKafkaInstanceTypeByID ks (Criteria_SupportedInstanceType c) with
      | inl cause =>
          GetAvailableSizesInRegion ks criteria s =
            (([], Some (MkServiceError (ErrorInstanceTypeNotSupported ks)
                          "unable to get available sizes in region: %s" [ArgError cause])), s)
      | inr instanceType =>
          let sizes := InstanceType_Sizes instanceType in
          exists out err s',
            GetAvailableSizesInRegion ks criteria s = ((out, err), s')
            /\ (err <> None -> out = [])
            /\ (out <> [] ->
                exists n size s1 s2 cluster,
                  (0 < n <= length sizes)%nat
                  /\ out = List.map Size_Id (firstn n sizes)
                  /\ nth_error sizes (n - 1) = Some size
                  /\ SizesRefused ks c (rev (skipn n sizes)) s s1
                  /\ HasAvailableCapacityInRegion ks (sizeRequest c size) s1
                     = ((true, None), s2)
                  /\ FindCluster ks (sizeRequest c size) s2 = (inr (Some cluster), s'))
            /\ (out = [] -> err = None -> SizesRefused ks c (rev sizes) s s')
      end
  end.
Proof.
  unfold GetAvailableSizesInRegion.
  destruct criteria as [c|]; [| reflexivity].
  destruct (GetKafkaInstanceTypeByID ks (Criteria_SupportedInstanceType c))
    as [cause|instanceType]; [reflexivity |].
  cbv zeta. set (sizes := InstanceType_Sizes instanceType).
  destruct (availableSizesFrom_cases c (rev sizes) s)
    as (out & err & s' & Hrun & Herr & Hout & Hnone).
  exists out, err, s'. split; [exact Hrun |]. split; [assumption |]. split; [| assumption].
  intros Hne.
  destruct (Hout Hne) as (larger & size & smaller & s1 & s2 & cluster
                          & Hsplit & Hrefused & Hcap & Hfind & ->).
  assert (Hsizes : sizes = (rev smaller ++ size :: rev larger)%list).
  { rewrite <- (List.rev_involutive sizes), Hsplit, List.rev_app_distr. simpl.
    now rewrite <- app_assoc. }
  exists (Datatypes.S (length smaller)), size, s1, s2, cluster.
  assert (Hlen : length (rev smaller ++ [size])%list = Datatypes.S (length smaller)).
  { rewrite length_app, List.length_rev. simpl. lia. }
  assert (Hsizes' : sizes = ((rev smaller ++ [size]) ++ rev larger)%list).
  { rewrite Hsizes, <- app_assoc. reflexivity. }
  split.
  { rewrite Hsizes, length_app, List.length_rev. simpl. lia. }
  split.
  { simpl. rewrite Hsizes', <- Hlen, List.firstn_app, List.firstn_all, Nat.sub_diag. simpl.
    now rewrite app_nil_r. }
  split.
  { rewrite Hsizes. replace (Datatypes.S (length smaller) - 1)%nat with (length (rev smaller))
      by (rewrite List.length_rev; lia).
    rewrite List.nth_error_app2 by lia. now rewrite Nat.sub_diag. }
  split; [| split; assumption].
  rewrite Hsizes', <- Hlen, List.skipn_app, List.skipn_all, Nat.sub_diag, List.skipn_O.
  simpl. now rewrite List.rev_involutive.
Qed.

End KafkaCapacity.

(** X12: the record batch has one change per route, in the order of the
    routes; each is a CNAME record with a TTL of 300 seconds, named
    after the route's domain, pointing at the route's router, with the
    requested action. *)
Theorem buildKafkaClusterCNAMESRecordBatch_per_route (routes : list DataPlaneKafkaRoute)
  (action : string) :
  buildKafkaClusterCNAMESRecordBatch routes action =
    List.map (fun r => {| Change_Action := action;
                          Change_Name := Route_Domain r;
                          Change_Type := "CNAME";
                          Change_TTL := 300;
                          Change_ResourceRecords := [Route_Router r] |}) routes.
Proof.
  unfold buildKafkaClusterCNAMESRecordBatch.
  assert (Hgen : forall changes,
            foldl (fun changes r =>
                     (changes ++ [buildResourceRecordChange (Route_Domain r) (Route_Router r)
                                    action])%list) changes routes
            = (changes ++ List.map (fun r => buildResourceRecordChange (Route_Domain r)
                                               (Route_Router r) action) routes)%list).
  { induction routes as [| r routes IH]; intros changes; simpl.
    - now rewrite app_nil_r.
    - rewrite IH, <- app_assoc. reflexivity. }
  rewrite Hgen. reflexivity.
Qed.

Lemma UpdateStatus_from_deprovision_witness : "deleting" = "deleting".
Proof.
  apply (UpdateStatus_from_deprovision memKafka "k2" "deleting" memKafkas memKafkas
           (mkKafka "k2" "deprovision" "x2")); reflexivity.
Defined.

Lemma CountByStatus_fills_missing_witness :
  exists added,
    CountByStatus memKafka ["ready"; "accepted"] memKafkas
      = (inr ([{| StatusCount_Status := "ready"; StatusCount_Count := 1 |}] ++ added)%list,
         memKafkas)
    /\ List.map StatusCount_Status added = ["accepted"].
Proof.
  destruct (CountByStatus_fills_missing memKafka ["ready"; "accepted"] memKafkas memKafkas
              [{| StatusCount_Status := "ready"; StatusCount_Count := 1 |}] eq_refl)
    as (added & Hrun & Hadded & _).
  exists added. split; assumption.
Defined.

Lemma capacityAvailable_iff_total_within_limit_witness :
  true = true <-> 4 + 1 <= 5.
Proof.
  apply (capacityAvailable_iff_total_within_limit memKafka 5 (mkKafka "k3" "" "x1")
           memKafkas memKafkas memKafkas memKafkas true).
  - reflexivity.
  - repeat constructor; vm_compute; congruence.
  - vm_compute. reflexivity.
  - reflexivity.
Defined.

Lemma HasAvailableCapacityInRegion_true_witness :
  snd (fst (HasAvailableCapacityInRegion memKafka (mkKafka "k3" "" "x1") memKafkas)) = None.
Proof.
  apply (HasAvailableCapacityInRegion_true memKafka (mkKafka "k3" "" "x1") memKafkas).
  reflexivity.
Defined.

(** With the two Kafkas of size x2 in the region and a limit of 5, only
    the smaller size is still available. *)
Example available_sizes_in_memory :
  GetAvailableSizesInRegion memKafka (Some standardCriteria) memKafkas
  = ((["x1"], None), memKafkas).
Proof. reflexivity. Qed.
